(** * pythonTradingBot: grid and TWAP engines

    A shallow embedding of [src/advanced/grid.py], [src/advanced/twap.py]
    and the validators of [src/validators.py] they call.

    Conventions of the embedding.
    - Python [float] prices and quantities are exact rationals ([Q]); every
      statement about them uses [Qeq] ([==]) or the order of [Q].
      [round(x, 2)] is rounding to the nearest hundredth, ties to even.
    - Python [int] counters and order ids are [Z].
    - The exchange is an oracle indexed by the number of events that the
      engine has produced so far; every request is appended to an event
      log, so that the calls an engine issues can be counted and compared.
    - The module flag [grid_running] is read through the oracle as well:
      [gw_stop t] says that a stop request ([stop_grid()] or the keyboard
      interrupt) has been delivered by time [t].  The assignment
      [grid_running = True] on entry means that requests older than the
      call are not seen, which is what indexing from the call's own log
      gives.
      A keyboard interrupt is taken where the loop tests the flag, that
      is between two cycles or during the sleep.
    - [grid_orders] is a Python dict: an association list in insertion
      order with unique keys.
    - Strings are ASCII; a response of the gateway carries an integer
      [orderId] and numeric [executedQty] and [avgPrice] (a response that
      cannot be read raises, and is an [OtherError]). *)

From Stdlib Require Import ZArith QArith Qround Qabs List Bool Lia Lqa.
From Stdlib Require Import Ascii String.
Import ListNotations.

Local Open Scope Z_scope.
Local Open Scope Q_scope.

(** ** Numbers *)

Module Num.

(** Nearest integer, ties to the even neighbour. *)
Definition round_half_even (x : Q) : Z :=
  let f := Qfloor x in
  match Qcompare (x - inject_Z f) (1 # 2) with
  | Lt => f
  | Gt => (f + 1)%Z
  | Eq => if Z.even f then f else (f + 1)%Z
  end.

(** Python's [round(x, 2)]. *)
Definition round2 (x : Q) : Q :=
  inject_Z (round_half_even (x * 100)) / 100.

(** Python's [sum(...)] over numbers: starts at 0 and adds left to right. *)
Definition qsum (l : list Q) : Q := fold_left Qplus l 0.

End Num.
Export Num.

(** ** Strings: the fragment of [str] used by the validators *)

Module Str.

Local Open Scope char_scope.
Local Open Scope nat_scope.

Definition is_lower (c : ascii) : bool :=
  (nat_of_ascii "a" <=? nat_of_ascii c) && (nat_of_ascii c <=? nat_of_ascii "z").

Definition is_upper (c : ascii) : bool :=
  (nat_of_ascii "A" <=? nat_of_ascii c) && (nat_of_ascii c <=? nat_of_ascii "Z").

Definition char_upper (c : ascii) : ascii :=
  if is_lower c then ascii_of_nat (nat_of_ascii c - 32) else c.

(** [s.upper()] *)
Fixpoint upper (s : string) : string :=
  match s with
  | EmptyString => EmptyString
  | String c r => String (char_upper c) (upper r)
  end.

Fixpoint has_lower (s : string) : bool :=
  match s with
  | EmptyString => false
  | String c r => is_lower c || has_lower r
  end.

Fixpoint has_upper (s : string) : bool :=
  match s with
  | EmptyString => false
  | String c r => is_upper c || has_upper r
  end.

(** [s.isupper()]: no cased character is lower case and there is at least
    one cased character. *)
Definition isupper (s : string) : bool := negb (has_lower s) && has_upper s.

(** [s.endswith(q)] *)
Definition endswith (s q : string) : bool :=
  (String.length q <=? String.length s) &&
  String.eqb (substring (String.length s - String.length q) (String.length q) s) q.

End Str.

(** ** src/validators.py *)

Module Validators.

Local Open Scope string_scope.

Definition valid_quotes : list string := ["USDT"; "BUSD"; "USD"; "BTC"; "ETH"].

Definition validate_symbol (symbol : string) : bool :=
  if (String.length symbol <? 6)%nat then false
  else if negb (Str.isupper symbol) then false
  else if negb (existsb (Str.endswith symbol) valid_quotes) then false
  else true.

Definition validate_quantity (quantity : Q) : bool :=
  match Qcompare 0 quantity with Lt => true | _ => false end.

Definition validate_price (price : Q) : bool :=
  match Qcompare 0 price with Lt => true | _ => false end.

Definition validate_side (side : string) : bool :=
  existsb (String.eqb (Str.upper side)) ["BUY"; "SELL"].

End Validators.
Export Validators.

(** ** The exchange gateway *)

Inductive OrderType := MARKET | LIMIT.

(** The keyword arguments of [futures_create_order]. *)
Record OrderReq := mkReq {
  rq_symbol : string;
  rq_side : string;
  rq_type : OrderType;
  rq_quantity : Q;
  rq_price : option Q
}.

(** What the engines read of a successful response. *)
Record OrderRecord := mkRec {
  orderId : Z;
  executedQty : Q;
  avgPrice : Q;
  status : string
}.

(** A gateway call returns, or raises [BinanceAPIException(code, message)],
    or raises some other [Exception]. *)
Inductive Outcome (A : Type) :=
| Ok (a : A)
| ApiError (code : Z) (message : string)
| OtherError (message : string).
Arguments Ok {A} a.
Arguments ApiError {A} code message.
Arguments OtherError {A} message.

Inductive Event :=
| EvCreate (r : OrderReq)
| EvOpenOrders (symbol : string)
| EvCancel (symbol : string) (order_id : Z)
| EvSleep (seconds : Z).

Definition Log := list Event.

Record Gateway := mkGateway {
  gw_create : nat -> OrderReq -> Outcome OrderRecord;
  gw_open_orders : nat -> string -> Outcome (list Z);
  gw_cancel : nat -> string -> Z -> Outcome unit;
  gw_stop : nat -> bool
}.

(** Computations that talk to the gateway: a state monad over the log. *)
Definition M (A : Type) : Type := Log -> A * Log.

Definition ret {A} (a : A) : M A := fun l => (a, l).
Definition bind {A B} (m : M A) (k : A -> M B) : M B :=
  fun l => let (a, l') := m l in k a l'.

Declare Scope gw_scope.
Delimit Scope gw_scope with gw.
Notation "x <- m ;; k" := (bind m (fun x => k))
  (at level 100, m at next level, right associativity) : gw_scope.
Notation "m ;;; k" := (bind m (fun _ => k))
  (at level 100, right associativity) : gw_scope.

Section Calls.
Variable gw : Gateway.

Definition create_order (r : OrderReq) : M (Outcome OrderRecord) :=
  fun l => (gw_create gw (List.length l) r, l ++ [EvCreate r]).

Definition get_open_orders (symbol : string) : M (Outcome (list Z)) :=
  fun l => (gw_open_orders gw (List.length l) (Str.upper symbol),
            l ++ [EvOpenOrders (Str.upper symbol)]).

Definition cancel_order (symbol : string) (oid : Z) : M (Outcome unit) :=
  fun l => (gw_cancel gw (List.length l) (Str.upper symbol) oid,
            l ++ [EvCancel (Str.upper symbol) oid]).

Definition sleep (seconds : Z) : M unit :=
  fun l => (tt, l ++ [EvSleep seconds]).

Definition stop_requested : M bool :=
  fun l => (gw_stop gw (List.length l), l).
End Calls.

(** [for x in xs: st = body(x, st)] *)
Fixpoint for_each {A S} (xs : list A) (body : A -> S -> M S) (st : S) : M S :=
  match xs with
  | [] => ret st
  | x :: r => (st' <- body x st ;; for_each r body st')%gw
  end.

(** [range(n)] *)
Definition range (n : Z) : list nat := seq 0 (Z.to_nat n).

(** [a < b] on Python numbers, as a test. *)
Definition Qltb (a b : Q) : bool :=
  match Qcompare a b with Lt => true | _ => false end.

(** ** Python dicts keyed by order id *)

Module Dict.
Section Dict.
Variable V : Type.

Definition t := list (Z * V).

Fixpoint get (d : t) (k : Z) : option V :=
  match d with
  | [] => None
  | (k', v) :: r => if Z.eqb k k' then Some v else get r k
  end.

(** [d[k] = v]: an existing key keeps its position, a new key goes last. *)
Fixpoint set (d : t) (k : Z) (v : V) : t :=
  match d with
  | [] => [(k, v)]
  | (k', v') :: r => if Z.eqb k k' then (k, v) :: r else (k', v') :: set r k v
  end.

(** [del d[k]] *)
Fixpoint del (d : t) (k : Z) : t :=
  match d with
  | [] => []
  | (k', v') :: r => if Z.eqb k k' then r else (k', v') :: del r k
  end.

Definition keys (d : t) : list Z := map fst d.
Definition values (d : t) : list V := map snd d.
End Dict.
Arguments get {V} d k.
Arguments set {V} d k v.
Arguments del {V} d k.
Arguments keys {V} d.
Arguments values {V} d.
End Dict.

(** ** src/advanced/grid.py *)

Module Grid.

Local Open Scope string_scope.

Inductive Side := BUY | SELL.

Definition side_str (s : Side) : string :=
  match s with BUY => "BUY" | SELL => "SELL" end.

(** The values of [grid_orders]. *)
Record TrackedOrder := mkOrder {
  side : Side;
  price : Q;
  grid_level : Z;
  quantity : Q
}.

(** The arguments of [start_grid_trading]. *)
Record Params := mkParams {
  symbol : string;
  quantity_per_grid : Q;
  lower_bound : Q;
  upper_bound : Q;
  num_grids : Z;
  monitor_interval_seconds : Z
}.

(** The local variables of [start_grid_trading] that outlive a loop body. *)
Record GridState := mkGrid {
  grid_orders : Dict.t TrackedOrder;
  total_buy_orders_placed : Z;
  total_sell_orders_placed : Z;
  total_buy_fills : Z;
  total_sell_fills : Z
}.

(** The dict returned at the end of a session. *)
Record Summary := mkSummary {
  success : bool;
  cycles : Z;
  total_buy_orders : Z;
  total_sell_orders : Z;
  buy_fills : Z;
  sell_fills : Z;
  orders_cancelled : Z;
  total_trades : Z
}.

(** How a call of the engine ends: with a summary, with [None], or not
    within the given number of loop iterations. *)
Inductive Result (A : Type) :=
| Returned (a : A)
| ReturnedNone
| StillRunning.
Arguments Returned {A} a.
Arguments ReturnedNone {A}.
Arguments StillRunning {A}.

Definition initial_state : GridState := mkGrid [] 0 0 0 0.

Definition validate (p : Params) : bool :=
  if negb (validate_symbol (symbol p)) then false
  else if negb (validate_quantity (quantity_per_grid p)) then false
  else if negb (validate_price (lower_bound p)) then false
  else if negb (validate_price (upper_bound p)) then false
  else if Qle_bool (upper_bound p) (lower_bound p) then false
  else if (num_grids p <=? 0)%Z then false
  else if (monitor_interval_seconds p <=? 0)%Z then false
  else true.

Definition price_range (p : Params) : Q := upper_bound p - lower_bound p.
Definition grid_step (p : Params) : Q := price_range p / inject_Z (num_grids p).

Definition limit_order (p : Params) (s : Side) (qty pr : Q) : OrderReq :=
  mkReq (Str.upper (symbol p)) (side_str s) LIMIT qty (Some pr).

Definition buy_price (p : Params) (i : nat) : Q :=
  round2 (lower_bound p + inject_Z (Z.of_nat i) * grid_step p).

Definition sell_price (p : Params) (i : nat) : Q :=
  round2 (upper_bound p - inject_Z (Z.of_nat i) * grid_step p).

Section Engine.
Variable gw : Gateway.
Variable p : Params.

Local Open Scope gw_scope.

(** Body of the first [for i in range(num_grids)] loop. *)
Definition place_buy (i : nat) (st : GridState) : M GridState :=
  let grid_level := Z.of_nat i in
  let price := buy_price p i in
  r <- create_order gw (limit_order p BUY (quantity_per_grid p) price) ;;
  match r with
  | Ok response =>
      ret (mkGrid
             (Dict.set (grid_orders st) (orderId response)
                       (mkOrder BUY price grid_level (quantity_per_grid p)))
             (total_buy_orders_placed st + 1)
             (total_sell_orders_placed st)
             (total_buy_fills st) (total_sell_fills st))
  | _ => ret st
  end.

(** Body of the second [for i in range(num_grids)] loop. *)
Definition place_sell (i : nat) (st : GridState) : M GridState :=
  let grid_level := (num_grids p + Z.of_nat i)%Z in
  let price := sell_price p i in
  r <- create_order gw (limit_order p SELL (quantity_per_grid p) price) ;;
  match r with
  | Ok response =>
      ret (mkGrid
             (Dict.set (grid_orders st) (orderId response)
                       (mkOrder SELL price grid_level (quantity_per_grid p)))
             (total_buy_orders_placed st)
             (total_sell_orders_placed st + 1)
             (total_buy_fills st) (total_sell_fills st))
  | _ => ret st
  end.

(** "Place Initial Grid Orders" *)
Definition place_initial_orders : M GridState :=
  st <- for_each (range (num_grids p)) place_buy initial_state ;;
  for_each (range (num_grids p)) place_sell st.

Definition mirror_side (s : Side) : Side :=
  match s with BUY => SELL | SELL => BUY end.

(** [new_price] after rounding. *)
Definition mirror_price (o : TrackedOrder) : Q :=
  match side o with
  | BUY => round2 (price o + grid_step p)
  | SELL => round2 (price o - grid_step p)
  end.

Definition out_of_bounds (x : Q) : bool :=
  Qltb x (lower_bound p) || Qltb (upper_bound p) x.

(** The state once the statistics are updated and the filled order is
    deleted. *)
Definition record_fill (order_id : Z) (o : TrackedOrder) (st : GridState)
  : GridState :=
  mkGrid (Dict.del (grid_orders st) order_id)
         (total_buy_orders_placed st) (total_sell_orders_placed st)
         (match side o with BUY => total_buy_fills st + 1
                       | SELL => total_buy_fills st end)%Z
         (match side o with BUY => total_sell_fills st
                       | SELL => total_sell_fills st + 1 end)%Z.

Definition track_replacement (new_id : Z) (o : TrackedOrder) (st : GridState)
  : GridState :=
  let new_side := mirror_side (side o) in
  mkGrid (Dict.set (grid_orders st) new_id
                   (mkOrder new_side (mirror_price o) (grid_level o) (quantity o)))
         (match new_side with BUY => total_buy_orders_placed st + 1
                         | SELL => total_buy_orders_placed st end)%Z
         (match new_side with BUY => total_sell_orders_placed st
                         | SELL => total_sell_orders_placed st + 1 end)%Z
         (total_buy_fills st) (total_sell_fills st).

(** One pass of the body of [for order_id in filled_order_ids], for an
    order whose entry [o] was found. *)
Definition replace_filled (order_id : Z) (o : TrackedOrder) (st : GridState)
  : M GridState :=
  let st1 := record_fill order_id o st in
  let new_price := mirror_price o in
  if out_of_bounds new_price then ret st1
  else
    r <- create_order gw
           (limit_order p (mirror_side (side o)) (quantity o) new_price) ;;
    match r with
    | Ok response => ret (track_replacement (orderId response) o st1)
    | _ => ret st1
    end.

(** [for order_id in filled_order_ids].  A missing key raises [KeyError]
    at [grid_orders[order_id]], which the handler of the cycle catches:
    the rest of the list is skipped. *)
Fixpoint process_filled (ids : list Z) (st : GridState) : M GridState :=
  match ids with
  | [] => ret st
  | order_id :: rest =>
      match Dict.get (grid_orders st) order_id with
      | None => ret st
      | Some o => st' <- replace_filled order_id o st ;; process_filled rest st'
      end
  end.

Definition filled_order_ids (open_order_ids : list Z) (st : GridState) : list Z :=
  filter (fun order_id => negb (existsb (Z.eqb order_id) open_order_ids))
         (Dict.keys (grid_orders st)).

(** The [try] block inside [while grid_running]. *)
Definition monitor_cycle (st : GridState) : M GridState :=
  r <- get_open_orders gw (symbol p) ;;
  match r with
  | Ok open_order_ids => process_filled (filled_order_ids open_order_ids st) st
  | _ => ret st
  end.

(** [while grid_running], for at most [fuel] tests of the flag. *)
Fixpoint monitor_loop (fuel : nat) (cycle_count : Z) (st : GridState)
  : M (option (Z * GridState)) :=
  match fuel with
  | O => ret None
  | S fuel' =>
      stop <- stop_requested gw ;;
      if stop then ret (Some (cycle_count, st))
      else
        st' <- monitor_cycle st ;;
        stop' <- stop_requested gw ;;
        (if stop' then ret tt else sleep (monitor_interval_seconds p)) ;;;
        monitor_loop fuel' (cycle_count + 1)%Z st'
  end.

(** "Cancel all remaining grid orders" *)
Definition cancel_one (order_id : Z) (cancelled_count : Z) : M Z :=
  r <- cancel_order gw (symbol p) order_id ;;
  match r with
  | Ok _ => ret (cancelled_count + 1)%Z
  | _ => ret cancelled_count
  end.

Definition cancel_remaining (st : GridState) : M Z :=
  for_each (Dict.keys (grid_orders st)) cancel_one 0%Z.

Definition summary (cycle_count cancelled_count : Z) (st : GridState) : Summary :=
  mkSummary true cycle_count
            (total_buy_orders_placed st) (total_sell_orders_placed st)
            (total_buy_fills st) (total_sell_fills st)
            cancelled_count
            (total_buy_fills st + total_sell_fills st)%Z.

(** What follows the validation. *)
Definition run_grid (fuel : nat) : M (Result Summary) :=
  st <- place_initial_orders ;;
  if (List.length (grid_orders st) =? 0)%nat then ret ReturnedNone
  else
    r <- monitor_loop fuel 0%Z st ;;
    match r with
    | None => ret StillRunning
    | Some (cycle_count, st') =>
        cancelled_count <- cancel_remaining st' ;;
        ret (Returned (summary cycle_count cancelled_count st'))
    end.

Definition start_grid_trading (fuel : nat) : M (Result Summary) :=
  if validate p then run_grid fuel else ret ReturnedNone.

End Engine.

End Grid.

(** ** src/advanced/twap.py *)

Module Twap.

(** The arguments of [execute_twap_order]. *)
Record Params := mkParams {
  symbol : string;
  side : string;
  total_quantity : Q;
  num_orders : Z;
  interval_seconds : Z
}.

(** ['error_code']: the exception's code, or the string ['UNKNOWN']. *)
Inductive ErrorCode := Code (c : Z) | UNKNOWN.

(** An entry of [executed_orders]. *)
Record Executed := mkExecuted {
  chunk_number : Z;
  order_id : Z;
  executed_qty : Q;
  avg_price : Q;
  order_status : string;
  response : OrderRecord
}.

(** An entry of [failed_orders]. *)
Record Failed := mkFailed {
  failed_chunk_number : Z;
  error_code : ErrorCode;
  error_message : string
}.

(** The local variables that the chunk loop updates. *)
Record State := mkState {
  st_executed_orders : list Executed;
  st_failed_orders : list Failed;
  total_executed_qty : Q
}.

(** The dict returned by [execute_twap_order]. *)
Record Summary := mkSummary {
  success : bool;
  total_chunks : Z;
  executed_chunks : Z;
  failed_chunks : Z;
  target_quantity : Q;
  executed_quantity : Q;
  executed_orders : list Executed;
  failed_orders : list Failed;
  avg_execution_price : Q
}.

Definition initial_state : State := mkState [] [] 0.

Definition validate (p : Params) : bool :=
  if negb (validate_symbol (symbol p)) then false
  else if negb (validate_side (side p)) then false
  else if negb (validate_quantity (total_quantity p)) then false
  else if (num_orders p <=? 0)%Z then false
  else if (interval_seconds p <=? 0)%Z then false
  else true.

Definition chunk_quantity (p : Params) : Q :=
  total_quantity p / inject_Z (num_orders p).

Definition chunk_order (p : Params) : OrderReq :=
  mkReq (Str.upper (symbol p)) (Str.upper (side p)) MARKET (chunk_quantity p) None.

(** [sum(order['executed_qty'] * order['avg_price'] for order in executed_orders)] *)
Definition total_value (l : list Executed) : Q :=
  qsum (map (fun o => executed_qty o * avg_price o) l).

Definition summarize (p : Params) (st : State) : Summary :=
  let avg :=
    match st_executed_orders st with
    | [] => 0
    | _ => if Qltb 0 (total_executed_qty st)
           then total_value (st_executed_orders st) / total_executed_qty st
           else 0
    end in
  mkSummary (List.length (st_failed_orders st) =? 0)%nat
            (num_orders p)
            (Z.of_nat (List.length (st_executed_orders st)))
            (Z.of_nat (List.length (st_failed_orders st)))
            (total_quantity p)
            (total_executed_qty st)
            (st_executed_orders st)
            (st_failed_orders st)
            avg.

Section Engine.
Variable gw : Gateway.
Variable p : Params.

Local Open Scope gw_scope.

Definition record_outcome (chunk_number : Z) (r : Outcome OrderRecord)
           (st : State) : State :=
  match r with
  | Ok resp =>
      mkState (st_executed_orders st ++
                 [mkExecuted chunk_number (orderId resp) (executedQty resp)
                             (avgPrice resp) (status resp) resp])
              (st_failed_orders st)
              (total_executed_qty st + executedQty resp)
  | ApiError c m =>
      mkState (st_executed_orders st)
              (st_failed_orders st ++ [mkFailed chunk_number (Code c) m])
              (total_executed_qty st)
  | OtherError m =>
      mkState (st_executed_orders st)
              (st_failed_orders st ++ [mkFailed chunk_number UNKNOWN m])
              (total_executed_qty st)
  end.

(** Body of [for i in range(num_orders)]. *)
Definition run_chunk (i : nat) (st : State) : M State :=
  let chunk_number := (Z.of_nat i + 1)%Z in
  r <- create_order gw (chunk_order p) ;;
  let st' := record_outcome chunk_number r st in
  if (chunk_number <? num_orders p)%Z
  then (sleep (interval_seconds p) ;;; ret st')
  else ret st'.

Definition run_chunks : M State :=
  for_each (range (num_orders p)) run_chunk initial_state.

Definition execute_twap_order : M (option Summary) :=
  if validate p then (st <- run_chunks ;; ret (Some (summarize p st)))
  else ret None.

End Engine.

End Twap.

(** ** Vocabulary of the statements *)

Definition is_ok {A} (r : Outcome A) : bool :=
  match r with Ok _ => true | _ => false end.

(** How many of the requests [reqs] are accepted when they are submitted
    one after the other, the first at time [t]. *)
Fixpoint count_ok (gw : Gateway) (t : nat) (reqs : list OrderReq) : nat :=
  match reqs with
  | [] => 0
  | r :: rest =>
      ((if is_ok (gw_create gw t r) then 1 else 0) + count_ok gw (S t) rest)%nat
  end.

(** The requests to cancel order [oid] in a log. *)
Definition cancels (oid : Z) (l : Log) : nat :=
  List.length
    (filter (fun e => match e with EvCancel _ o => Z.eqb o oid | _ => false end) l).

Definition creates (l : Log) : list OrderReq :=
  flat_map (fun e => match e with EvCreate r => [r] | _ => [] end) l.

Definition sleeps (l : Log) : list Z :=
  flat_map (fun e => match e with EvSleep s => [s] | _ => [] end) l.

Definition fetches (l : Log) : nat :=
  List.length
    (filter (fun e => match e with EvOpenOrders _ => true | _ => false end) l).

Module GridSpec.
Import Grid.

Definition buy_request (p : Params) (i : nat) : OrderReq :=
  limit_order p BUY (quantity_per_grid p) (buy_price p i).

Definition sell_request (p : Params) (i : nat) : OrderReq :=
  limit_order p SELL (quantity_per_grid p) (sell_price p i).

(** The ladder of section 4.1, in the order of submission. *)
Definition initial_requests (p : Params) : list OrderReq :=
  map (buy_request p) (range (num_grids p)) ++
  map (sell_request p) (range (num_grids p)).

(** An entry of the tracker as the two placement loops write it. *)
Definition initial_entry (p : Params) (o : TrackedOrder) : Prop :=
  exists i : nat,
    (Z.of_nat i < num_grids p)%Z /\
    (o = mkOrder BUY (buy_price p i) (Z.of_nat i) (quantity_per_grid p) \/
     o = mkOrder SELL (sell_price p i) (num_grids p + Z.of_nat i)
                 (quantity_per_grid p)).

Definition in_bounds (p : Params) (o : TrackedOrder) : Prop :=
  lower_bound p <= price o /\ price o <= upper_bound p.

Definition all_in_bounds (p : Params) (st : GridState) : Prop :=
  Forall (in_bounds p) (Dict.values (grid_orders st)).

(** Orders accepted so far, on either side. *)
Definition placed (st : GridState) : Z :=
  (total_buy_orders_placed st + total_sell_orders_placed st)%Z.

(** The tracker is empty exactly when nothing was accepted. *)
Definition populated (st : GridState) : Prop :=
  (0 <= placed st)%Z /\ (placed st = 0%Z <-> grid_orders st = []).

(** Fills detected so far, on either side. *)
Definition fills (st : GridState) : Z :=
  (total_buy_fills st + total_sell_fills st)%Z.

(** The mirror of a tracked order, as the tracker stores it. *)
Definition mirror_entry (p : Params) (o : TrackedOrder) : TrackedOrder :=
  mkOrder (mirror_side (side o)) (mirror_price p o) (grid_level o) (quantity o).

Definition mirror_request (p : Params) (o : TrackedOrder) : OrderReq :=
  limit_order p (mirror_side (side o)) (quantity o) (mirror_price p o).

(** The cancellation pass of the shutdown, performed two times in a row on
    the same state. *)
Definition shutdown_twice (gw : Gateway) (p : Params) (st : GridState)
  : M (Z * Z) :=
  (c1 <- cancel_remaining gw p st ;;
   c2 <- cancel_remaining gw p st ;;
   ret (c1, c2))%gw.

End GridSpec.

Module TwapSpec.
Import Twap.

(** Section 4.2: one market order per chunk and a sleep between two
    consecutive chunks. *)
Fixpoint schedule (p : Params) (n : nat) : Log :=
  match n with
  | O => []
  | S O => [EvCreate (chunk_order p)]
  | S n' => EvCreate (chunk_order p) :: EvSleep (interval_seconds p) :: schedule p n'
  end.

Definition submitted_quantity (l : Log) : Q :=
  qsum (map rq_quantity (creates l)).

(** An entry of [executed_orders] repeats the fields of its response. *)
Definition recorded (e : Executed) : Prop :=
  e = mkExecuted (chunk_number e) (orderId (response e))
                 (executedQty (response e)) (avgPrice (response e))
                 (status (response e)) (response e).

Definition consistent (st : State) : Prop :=
  total_executed_qty st == qsum (map executed_qty (st_executed_orders st)) /\
  Forall recorded (st_executed_orders st).

(** Chunks recorded so far, on either list. *)
Definition chunks_done (st : State) : nat :=
  (List.length (st_executed_orders st) + List.length (st_failed_orders st))%nat.

End TwapSpec.

(** ** Sample gateways and parameters *)

Module Samples.
Local Open Scope string_scope.

(** Accepts everything; the order created at time [t] gets id [t + 100];
    no order is ever reported open; the stop request arrives at time [stop]. *)
Definition accept_all (stop : nat) : Gateway :=
  mkGateway (fun t _ => Ok (mkRec (Z.of_nat t + 100) (1 # 1000) 45000 "FILLED"))
            (fun _ _ => Ok [])
            (fun _ _ _ => Ok tt)
            (fun t => (stop <=? t)%nat).

(** Rejects every request. *)
Definition reject_all (stop : nat) : Gateway :=
  mkGateway (fun _ _ => ApiError (-2019) "Margin is insufficient.")
            (fun _ _ => ApiError (-1003) "Too many requests.")
            (fun _ _ _ => ApiError (-2011) "Unknown order sent.")
            (fun t => (stop <=? t)%nat).

(** As [accept_all], but the orders 101 to 105 are reported open. *)
Definition fill_first (stop : nat) : Gateway :=
  mkGateway (fun t _ => Ok (mkRec (Z.of_nat t + 100) (1 # 1000) 45000 "FILLED"))
            (fun _ _ => Ok [101; 102; 103; 104; 105]%Z)
            (fun _ _ _ => Ok tt)
            (fun t => (stop <=? t)%nat).

(** Accepts the orders, fails every fetch and every cancellation. *)
Definition flaky (stop : nat) : Gateway :=
  mkGateway (fun t _ => Ok (mkRec (Z.of_nat t + 100) (1 # 1000) 45000 "FILLED"))
            (fun _ _ => ApiError (-1003) "Too many requests.")
            (fun _ _ _ => OtherError "Connection reset by peer")
            (fun t => (stop <=? t)%nat).

(** Rejects every request and is never asked to stop. *)
Definition reject_all_unstopped : Gateway :=
  mkGateway (fun _ _ => ApiError (-2019) "Margin is insufficient.")
            (fun _ _ => ApiError (-1003) "Too many requests.")
            (fun _ _ _ => ApiError (-2011) "Unknown order sent.")
            (fun _ => false).

Definition grid_5 : Grid.Params :=
  Grid.mkParams "BTCUSDT" (1 # 1000) 40000 50000 5 60.

Definition grid_thirds : Grid.Params :=
  Grid.mkParams "BTCUSDT" (1 # 1000) 1 2 3 60.

Definition grid_fine : Grid.Params :=
  Grid.mkParams "BTCUSDT" (1 # 1000) (40000124 # 1000) 50000 5 60.

Definition grid_bad_bounds : Grid.Params :=
  Grid.mkParams "BTCUSDT" (1 # 1000) 50000 40000 5 60.

Definition twap_5 : Twap.Params :=
  Twap.mkParams "BTCUSDT" "BUY" (5 # 1000) 5 5.

Definition twap_thirds : Twap.Params :=
  Twap.mkParams "BTCUSDT" "BUY" 1 3 5.

End Samples.

From Stdlib Require Import Permutation Sorted.

(** ** Further vocabulary: what the engines keep *)

Module GridInv.
Import Grid GridSpec.

(** The shape of every order that the grid engine submits. *)
Definition grid_limit_request (p : Params) (r : OrderReq) : Prop :=
  rq_symbol r = Str.upper (symbol p) /\
  (rq_side r = "BUY"%string \/ rq_side r = "SELL"%string) /\
  rq_type r = LIMIT /\
  rq_quantity r = quantity_per_grid p /\
  rq_price r <> None.

Definition level_in_range (p : Params) (o : TrackedOrder) : Prop :=
  (0 <= grid_level o < 2 * num_grids p)%Z.

Definition sized (p : Params) (o : TrackedOrder) : Prop :=
  quantity o = quantity_per_grid p.

Definition good_entry (p : Params) (o : TrackedOrder) : Prop :=
  level_in_range p o /\ sized p o.

(** Within half a cent of the range. *)
Definition near_bounds (p : Params) (o : TrackedOrder) : Prop :=
  lower_bound p - (1 # 200) <= price o /\ price o <= upper_bound p + (1 # 200).

(** Every fill and every order still tracked is an order that was placed. *)
Definition accounted (st : GridState) : Prop :=
  (0 <= total_buy_orders_placed st)%Z /\ (0 <= total_sell_orders_placed st)%Z /\
  (0 <= total_buy_fills st)%Z /\ (0 <= total_sell_fills st)%Z /\
  (Z.of_nat (List.length (grid_orders st)) + fills st <= placed st)%Z.

End GridInv.

Module TwapInv.
Import Twap.

(** The chunk numbers on the two lists of a run. *)
Definition chunk_numbers (st : State) : list Z :=
  map chunk_number (st_executed_orders st) ++
  map failed_chunk_number (st_failed_orders st).

(** The numbers of the chunks up to [a] are on the lists, in order. *)
Definition numbered (a : nat) (st : State) : Prop :=
  StronglySorted Z.lt (map chunk_number (st_executed_orders st)) /\
  StronglySorted Z.lt (map failed_chunk_number (st_failed_orders st)) /\
  Forall (fun n => (n <= Z.of_nat a)%Z) (chunk_numbers st).

End TwapInv.

(** ** The single-order layer

    [src/market_orders.py], [src/limit_orders.py],
    [src/advanced/stop_limit.py] and [src/advanced/oco.py] call the
    exchange client directly, with keyword arguments that the engines do
    not use; they get a request record and a trace of their own.  Of the
    log lines only the warnings are kept in the trace. *)

Module Orders.

Local Open Scope string_scope.

(** The keyword arguments of [futures_create_order]; an absent key is
    [None], or [false] for [closePosition]. *)
Record OrderParams := mkOrderParams {
  op_symbol : string;
  op_side : string;
  op_type : string;
  op_quantity : option Q;
  op_price : option Q;
  op_stopPrice : option Q;
  op_timeInForce : option string;
  op_workingType : option string;
  op_closePosition : bool;
  op_recvWindow : option Z
}.

(** What is read of an order dict of the exchange.  [origQty] and [price]
    are [None] when [float(...)] of the field raises. *)
Record OrderInfo := mkOrderInfo {
  oi_orderId : Z;
  oi_status : string;
  oi_side : string;
  oi_type : string;
  oi_origQty : option Q;
  oi_price : option Q
}.

Inductive Call :=
| CCreate (r : OrderParams)
| CGetOrder (symbol : string) (order_id : Z)
| CCancel (symbol : string) (order_id : Z)
| COpenOrders (symbol : option string)
| CWarning.

Definition Trace := list Call.

(** [client.client]: the answers of the exchange, by the number of events
    so far. *)
Record Exchange := mkExchange {
  ex_create : nat -> OrderParams -> Outcome OrderInfo;
  ex_get_order : nat -> string -> Z -> Outcome OrderInfo;
  ex_cancel : nat -> string -> Z -> Outcome OrderInfo;
  ex_open_orders : nat -> option string -> Outcome (list OrderInfo)
}.

(** [client.recv_window], set in [BinanceFuturesClient.__init__]. *)
Definition recv_window : Z := 60000.

Definition IO (A : Type) : Type := Trace -> A * Trace.

Definition pure {A} (a : A) : IO A := fun t => (a, t).
Definition and_then {A B} (m : IO A) (k : A -> IO B) : IO B :=
  fun t => let (a, t') := m t in k a t'.

Declare Scope io_scope.
Delimit Scope io_scope with io.
Notation "x <~ m ;; k" := (and_then m (fun x => k))
  (at level 100, m at next level, right associativity) : io_scope.

Section Client.
Variable ex : Exchange.

Local Open Scope io_scope.

Definition futures_create_order (r : OrderParams) : IO (Outcome OrderInfo) :=
  fun t => (ex_create ex (List.length t) r, (t ++ [CCreate r])%list).

Definition futures_get_order (symbol : string) (order_id : Z)
  : IO (Outcome OrderInfo) :=
  fun t => (ex_get_order ex (List.length t) symbol order_id,
            (t ++ [CGetOrder symbol order_id])%list).

Definition futures_cancel_order (symbol : string) (order_id : Z)
  : IO (Outcome OrderInfo) :=
  fun t => (ex_cancel ex (List.length t) symbol order_id,
            (t ++ [CCancel symbol order_id])%list).

Definition futures_get_open_orders (symbol : option string)
  : IO (Outcome (list OrderInfo)) :=
  fun t => (ex_open_orders ex (List.length t) symbol, (t ++ [COpenOrders symbol])%list).

Definition warning : IO unit := fun t => (tt, (t ++ [CWarning])%list).

(** [return response] inside [try], [return None] in both handlers. *)
Definition response_or_none {A} (r : Outcome A) : option A :=
  match r with Ok a => Some a | _ => None end.

(** *** src/market_orders.py *)

Definition market_params (symbol side : string) (quantity : Q) : OrderParams :=
  mkOrderParams (Str.upper symbol) (Str.upper side) "MARKET" (Some quantity)
                None None None None false (Some recv_window).

Definition place_market_order (symbol side : string) (quantity : Q)
  : IO (option OrderInfo) :=
  if negb (validate_symbol symbol) then pure None
  else if negb (validate_side side) then pure None
  else if negb (validate_quantity quantity) then pure None
  else
    r <~ futures_create_order (market_params symbol side quantity) ;;
    pure (response_or_none r).

Definition get_order_status (symbol : string) (order_id : Z)
  : IO (option OrderInfo) :=
  r <~ futures_get_order (Str.upper symbol) order_id ;;
  pure (response_or_none r).

Definition cancel_order (symbol : string) (order_id : Z)
  : IO (option OrderInfo) :=
  r <~ futures_cancel_order (Str.upper symbol) order_id ;;
  pure (response_or_none r).

(** *** src/limit_orders.py *)

Definition limit_params (symbol side : string) (quantity price : Q)
  : OrderParams :=
  mkOrderParams (Str.upper symbol) (Str.upper side) "LIMIT" (Some quantity)
                (Some price) None (Some "GTC") None false (Some recv_window).

Definition place_limit_order (symbol side : string) (quantity price : Q)
  : IO (option OrderInfo) :=
  if negb (validate_symbol symbol) then pure None
  else if negb (validate_side side) then pure None
  else if negb (validate_quantity quantity) then pure None
  else if negb (validate_price price) then pure None
  else
    r <~ futures_create_order (limit_params symbol side quantity price) ;;
    pure (response_or_none r).

(** [x if x is not None else float(current_order.get(...))] *)
Definition or_current (x current : option Q) : option Q :=
  match x with Some v => Some v | None => current end.

Definition modifiable (status : string) : bool :=
  existsb (String.eqb status) ["NEW"; "PARTIALLY_FILLED"].

Definition modify_limit_order (symbol : string) (order_id : Z)
           (quantity price : option Q) : IO (option OrderInfo) :=
  g <~ futures_get_order (Str.upper symbol) order_id ;;
  match g with
  | Ok current_order =>
      if negb (modifiable (oi_status current_order)) then pure None
      else
        c <~ futures_cancel_order (Str.upper symbol) order_id ;;
        match c with
        | Ok _ =>
            match or_current quantity (oi_origQty current_order) with
            | None => pure None
            | Some new_quantity =>
                match or_current price (oi_price current_order) with
                | None => pure None
                | Some new_price =>
                    place_limit_order symbol (oi_side current_order)
                                      new_quantity new_price
                end
            end
        | _ => pure None
        end
  | _ => pure None
  end.

(** [if symbol:] *)
Definition truthy (symbol : option string) : bool :=
  match symbol with
  | Some s => negb (String.eqb s "")
  | None => false
  end.

Definition get_open_limit_orders (symbol : option string) : IO (list OrderInfo) :=
  r <~ (if truthy symbol
        then futures_get_open_orders (option_map Str.upper symbol)
        else futures_get_open_orders None) ;;
  match r with
  | Ok orders => pure (filter (fun o => String.eqb (oi_type o) "LIMIT") orders)
  | _ => pure []
  end.

(** *** src/advanced/stop_limit.py *)

Definition stop_limit_params (symbol side : string) (quantity price stop_price : Q)
  : OrderParams :=
  mkOrderParams (Str.upper symbol) (Str.upper side) "STOP" (Some quantity)
                (Some price) (Some stop_price) (Some "GTC")
                (Some "CONTRACT_PRICE") false (Some recv_window).

(** The test that guards the warning of [place_stop_limit_order]. *)
Definition unusual_prices (side : string) (price stop_price : Q) : bool :=
  if String.eqb (Str.upper side) "BUY" then Qltb (stop_price * (11 # 10)) price
  else if String.eqb (Str.upper side) "SELL" then Qltb price (stop_price * (9 # 10))
  else false.

Definition place_stop_limit_order (symbol side : string)
           (quantity price stop_price : Q) : IO (option OrderInfo) :=
  if negb (validate_symbol symbol) then pure None
  else if negb (validate_side side) then pure None
  else if negb (validate_quantity quantity) then pure None
  else if negb (validate_price price) then pure None
  else if negb (validate_price stop_price) then pure None
  else
    _ <~ (if unusual_prices side price stop_price then warning else pure tt) ;;
    r <~ futures_create_order
           (stop_limit_params symbol side quantity price stop_price) ;;
    pure (response_or_none r).

Definition stop_market_params (symbol side : string) (quantity stop_price : Q)
  : OrderParams :=
  mkOrderParams (Str.upper symbol) (Str.upper side) "STOP_MARKET" (Some quantity)
                None (Some stop_price) None (Some "CONTRACT_PRICE") false None.

Definition place_stop_market_order (symbol side : string)
           (quantity stop_price : Q) : IO (option OrderInfo) :=
  if negb (validate_symbol symbol) then pure None
  else if negb (validate_side side) then pure None
  else if negb (validate_quantity quantity) then pure None
  else if negb (validate_price stop_price) then pure None
  else
    r <~ futures_create_order
           (stop_market_params symbol side quantity stop_price) ;;
    pure (response_or_none r).

(** *** src/advanced/oco.py *)

Definition closing_params (symbol order_side type : string) (stop_price : Q)
  : OrderParams :=
  mkOrderParams (Str.upper symbol) order_side type None None (Some stop_price)
                None (Some "CONTRACT_PRICE") true (Some recv_window).

Definition order_side_for (position_side_upper : string) : string :=
  if String.eqb position_side_upper "LONG" then "SELL" else "BUY".

Definition oco_prices_ok (position_side_upper : string)
           (take_profit_price stop_price : Q) : bool :=
  if String.eqb position_side_upper "LONG"
  then negb (Qle_bool take_profit_price stop_price)
  else negb (Qle_bool stop_price take_profit_price).

Definition oco_valid (symbol position_side : string)
           (position_quantity take_profit_price stop_price : Q) : bool :=
  if negb (validate_symbol symbol) then false
  else if negb (existsb (String.eqb (Str.upper position_side)) ["LONG"; "SHORT"])
  then false
  else if negb (validate_quantity position_quantity) then false
  else if negb (validate_price take_profit_price) then false
  else if negb (validate_price stop_price) then false
  else oco_prices_ok (Str.upper position_side) take_profit_price stop_price.

Definition place_oco_for_position (symbol position_side : string)
           (position_quantity take_profit_price stop_price : Q)
  : IO (option (OrderInfo * OrderInfo)) :=
  if negb (oco_valid symbol position_side position_quantity
                     take_profit_price stop_price)
  then pure None
  else
    let order_side := order_side_for (Str.upper position_side) in
    tp <~ futures_create_order
            (closing_params symbol order_side "TAKE_PROFIT_MARKET"
                            take_profit_price) ;;
    match tp with
    | Ok take_profit_response =>
        sl <~ futures_create_order
                (closing_params symbol order_side "STOP_MARKET" stop_price) ;;
        match sl with
        | Ok stop_loss_response =>
            pure (Some (take_profit_response, stop_loss_response))
        | _ => _ <~ warning ;; pure None
        end
    | _ => pure None
    end.

End Client.

(** [calculate_oco_prices]: the pair [(take_profit_price, stop_price)]. *)
Definition calculate_oco_prices (current_price : Q) (position_side : string)
           (take_profit_percent stop_loss_percent : Q) : Q * Q :=
  if String.eqb (Str.upper position_side) "LONG"
  then (current_price * (1 + take_profit_percent / 100),
        current_price * (1 - stop_loss_percent / 100))
  else (current_price * (1 - take_profit_percent / 100),
        current_price * (1 + stop_loss_percent / 100)).

(** A request with an accepted symbol, a side that the exchange knows and
    positive numbers. *)
Definition positive (x : option Q) : Prop :=
  match x with Some v => 0 < v | None => True end.

Definition sound_request (r : OrderParams) : Prop :=
  validate_symbol (op_symbol r) = true /\
  (op_side r = "BUY" \/ op_side r = "SELL") /\
  positive (op_quantity r) /\ positive (op_price r) /\ positive (op_stopPrice r).

Definition requests (t : Trace) : list OrderParams :=
  flat_map (fun c => match c with CCreate r => [r] | _ => [] end) t.

(** Sample exchanges. *)
Definition sample_order (order_id : Z) (status : string) : OrderInfo :=
  mkOrderInfo order_id status "BUY" "LIMIT" (Some (1 # 1000)) (Some 40000).

Definition obliging : Exchange :=
  mkExchange (fun t _ => Ok (sample_order (Z.of_nat t + 500) "NEW"))
             (fun _ _ order_id => Ok (sample_order order_id "NEW"))
             (fun _ _ order_id => Ok (sample_order order_id "CANCELED"))
             (fun _ _ => Ok [sample_order 1 "NEW"]).

(** Accepts the first request only. *)
Definition one_shot : Exchange :=
  mkExchange (fun t _ => if (t =? 0)%nat then Ok (sample_order 500 "NEW")
                         else ApiError (-2021) "Order would immediately trigger.")
             (fun _ _ order_id => Ok (sample_order order_id "FILLED"))
             (fun _ _ _ => ApiError (-2011) "Unknown order sent.")
             (fun _ _ => OtherError "timeout").

End Orders.

(** * Properties *)

(** ** Numbers *)

Section NumFacts.

Lemma Qltb_lt (a b : Q) : Qltb a b = true <-> a < b.
Proof.
unfold Qltb. rewrite Qlt_alt. destruct (Qcompare a b); split; congruence.
Qed.

Lemma Qltb_ge (a b : Q) : Qltb a b = false <-> b <= a.
Proof.
split; intro H.
- apply Qnot_lt_le. intro L. apply Qltb_lt in L. congruence.
- destruct (Qltb a b) eqn:E; [|reflexivity].
  apply Qltb_lt in E. exfalso. exact (Qlt_not_le _ _ E H).
Qed.

Lemma round_half_even_comp (x y : Q) :
x == y -> round_half_even x = round_half_even y.
Proof.
intro E. unfold round_half_even.
rewrite (Qfloor_comp _ _ E).
assert (C : Qcompare (x - inject_Z (Qfloor y)) (1 # 2)
            = Qcompare (y - inject_Z (Qfloor y)) (1 # 2)).
{ apply Qcompare_comp; [rewrite E; reflexivity | reflexivity]. }
rewrite C. reflexivity.
Qed.

Lemma round_half_even_lower (x : Q) : (Qfloor x <= round_half_even x)%Z.
Proof.
unfold round_half_even.
destruct (Qcompare _ _); [destruct (Z.even _)| |]; lia.
Qed.

Lemma round_half_even_upper (x : Q) : (round_half_even x <= Qfloor x + 1)%Z.
Proof.
unfold round_half_even.
destruct (Qcompare _ _); [destruct (Z.even _)| |]; lia.
Qed.

Lemma round_half_even_Z (z : Z) : round_half_even (inject_Z z) = z.
Proof.
unfold round_half_even. rewrite Qfloor_Z.
assert (C : Qcompare (inject_Z z - inject_Z z) (1 # 2) = Lt).
{ rewrite <- Qlt_alt. generalize (inject_Z z). intro q. lra. }
rewrite C. reflexivity.
Qed.

(** A bound that is a whole number is not crossed by rounding. *)
Lemma round_half_even_ge (m : Z) (y : Q) :
inject_Z m <= y -> (m <= round_half_even y)%Z.
Proof.
intro H. apply Qfloor_resp_le in H. rewrite Qfloor_Z in H.
pose proof (round_half_even_lower y). lia.
Qed.

Lemma round_half_even_le (m : Z) (y : Q) :
y <= inject_Z m -> (round_half_even y <= m)%Z.
Proof.
intro H.
destruct (Z_lt_le_dec (Qfloor y) m) as [L|G].
- pose proof (round_half_even_upper y). lia.
- assert (E : y == inject_Z m).
  { apply Qle_antisym; [exact H|].
    apply Qle_trans with (inject_Z (Qfloor y)); [|apply Qfloor_le].
    rewrite <- Zle_Qle. exact G. }
  rewrite (round_half_even_comp _ _ E), round_half_even_Z. lia.
Qed.

Lemma round2_fixed (a : Q) :
round2 a == a -> a * 100 == inject_Z (round_half_even (a * 100)).
Proof.
unfold round2. intro H. rewrite <- H at 1. field.
Qed.

Lemma round2_ge (a x : Q) : round2 a == a -> a <= x -> a <= round2 x.
Proof.
intros Ha Hx. apply round2_fixed in Ha.
assert (H : inject_Z (round_half_even (a * 100)) <= x * 100) by (rewrite <- Ha; lra).
apply round_half_even_ge in H. rewrite Zle_Qle in H.
unfold round2. 
apply Qle_trans with (inject_Z (round_half_even (a * 100)) / 100).
- rewrite <- Ha. apply Qle_lteq. right. field.
- apply Qmult_le_compat_r; [exact H | ]. discriminate.
Qed.

Lemma round2_le (b x : Q) : round2 b == b -> x <= b -> round2 x <= b.
Proof.
intros Hb Hx. apply round2_fixed in Hb.
assert (H : x * 100 <= inject_Z (round_half_even (b * 100))) by (rewrite <- Hb; lra).
apply round_half_even_le in H. rewrite Zle_Qle in H.
unfold round2.
apply Qle_trans with (inject_Z (round_half_even (b * 100)) / 100).
- apply Qmult_le_compat_r; [exact H | ]. discriminate.
- rewrite <- Hb. apply Qle_lteq. right. field.
Qed.

End NumFacts.

(** ** Dicts *)

Section DictFacts.
Context {V : Type}.
Implicit Types (d : Dict.t V) (k : Z) (v : V).

Lemma get_in_values d k v : Dict.get d k = Some v -> In v (Dict.values d).
Proof.
  induction d as [|[k' v'] r IH]; simpl; [discriminate|].
  destruct (Z.eqb k k'); intro H.
  - left. congruence.
  - right. auto.
Qed.

Lemma get_in_keys d k v : Dict.get d k = Some v -> In k (Dict.keys d).
Proof.
  induction d as [|[k' v'] r IH]; simpl; [discriminate|].
  destruct (Z.eqb_spec k k'); intro H.
  - left. congruence.
  - right. auto.
Qed.

Lemma values_set d k v (P : V -> Prop) :
  Forall P (Dict.values d) -> P v -> Forall P (Dict.values (Dict.set d k v)).
Proof.
  intros Hd Hv. induction d as [|[k' v'] r IH]; simpl.
  - constructor; [exact Hv | constructor].
  - inversion Hd; subst. destruct (Z.eqb k k'); simpl; constructor; auto.
Qed.

Lemma values_del d k (P : V -> Prop) :
  Forall P (Dict.values d) -> Forall P (Dict.values (Dict.del d k)).
Proof.
  intros Hd. induction d as [|[k' v'] r IH]; simpl; [constructor|].
  inversion Hd; subst. destruct (Z.eqb k k'); simpl; [assumption|].
  constructor; auto.
Qed.

Lemma keys_set_in d k v k0 :
  In k0 (Dict.keys (Dict.set d k v)) -> k0 = k \/ In k0 (Dict.keys d).
Proof.
  induction d as [|[k' v'] r IH]; simpl.
  - intros [H|[]]. left. congruence.
  - destruct (Z.eqb_spec k k'); simpl; intros [H|H]; subst; auto.
    destruct (IH H); auto.
Qed.

Lemma keys_del_in d k k0 :
  In k0 (Dict.keys (Dict.del d k)) -> In k0 (Dict.keys d).
Proof.
  induction d as [|[k' v'] r IH]; simpl; [tauto|].
  destruct (Z.eqb k k'); simpl; intros H; [auto|].
  destruct H; auto.
Qed.

Lemma keys_set_NoDup d k v :
  NoDup (Dict.keys d) -> NoDup (Dict.keys (Dict.set d k v)).
Proof.
  induction d as [|[k' v'] r IH]; simpl; intro H.
  - constructor; [intros []|constructor].
  - inversion H; subst. destruct (Z.eqb_spec k k'); simpl.
    + subst. constructor; assumption.
    + constructor; [|auto].
      intro Hin. apply keys_set_in in Hin. destruct Hin; [congruence|auto].
Qed.

Lemma keys_del_NoDup d k :
  NoDup (Dict.keys d) -> NoDup (Dict.keys (Dict.del d k)).
Proof.
  induction d as [|[k' v'] r IH]; simpl; intro H; [constructor|].
  inversion H; subst. destruct (Z.eqb k k'); simpl; [assumption|].
  constructor; [|auto]. intro Hin. apply keys_del_in in Hin. auto.
Qed.

Lemma del_absent d k :
  NoDup (Dict.keys d) -> ~ In k (Dict.keys (Dict.del d k)).
Proof.
  induction d as [|[k' v'] r IH]; simpl; intro H; [tauto|].
  inversion H; subst. destruct (Z.eqb_spec k k'); simpl.
  - subst. assumption.
  - intros [E|Hin]; [congruence|]. exact (IH H3 Hin).
Qed.

Lemma del_length d k v :
  Dict.get d k = Some v -> S (List.length (Dict.del d k)) = List.length d.
Proof.
  induction d as [|[k' v'] r IH]; simpl; [discriminate|].
  destruct (Z.eqb k k'); simpl; intro H; [reflexivity|].
  rewrite IH; auto.
Qed.

Lemma set_length d k v :
  (List.length d <= List.length (Dict.set d k v))%nat /\
  (1 <= List.length (Dict.set d k v))%nat.
Proof.
  induction d as [|[k' v'] r IH]; simpl; [lia|].
  destruct (Z.eqb k k'); simpl; lia.
Qed.

Lemma get_set d k v k0 :
  Dict.get (Dict.set d k v) k0 = if Z.eqb k0 k then Some v else Dict.get d k0.
Proof.
  induction d as [|[k' v'] r IH]; simpl.
  - destruct (Z.eqb k0 k); reflexivity.
  - destruct (Z.eqb_spec k k'); simpl.
    + subst. destruct (Z.eqb k0 k'); reflexivity.
    + rewrite IH. destruct (Z.eqb_spec k0 k'), (Z.eqb_spec k0 k);
        try reflexivity; congruence.
Qed.
End DictFacts.

(** ** The log only grows *)

Lemma for_each_app {A S} (body : A -> S -> M S) (xs ys : list A) (st : S) (l : Log) :
  for_each (xs ++ ys) body st l
  = let (st', l') := for_each xs body st l in for_each ys body st' l'.
Proof.
  revert st l. induction xs as [|x r IH]; intros st l; simpl.
  - reflexivity.
  - unfold bind. destruct (body x st l) as [st1 l1]. apply IH.
Qed.

(** A loop whose body sends one event per element, whatever the answer. *)
Lemma for_each_log {A S} (body : A -> S -> M S) (ev : A -> Event) :
  (forall x st l, snd (body x st l) = l ++ [ev x]) ->
  forall xs st l, snd (for_each xs body st l) = l ++ map ev xs.
Proof.
  intros Hb xs. induction xs as [|x r IH]; intros st l; simpl.
  - unfold ret. simpl. now rewrite app_nil_r.
  - unfold bind. specialize (Hb x st l).
    destruct (body x st l) as [st1 l1]. simpl in Hb. subst l1.
    rewrite IH, <- app_assoc. reflexivity.
Qed.

(** A loop invariant on the state alone. *)
Lemma for_each_inv {A S} (body : A -> S -> M S) (I : S -> Prop) :
  (forall x st l, I st -> I (fst (body x st l))) ->
  forall xs st l, I st -> I (fst (for_each xs body st l)).
Proof.
  intros Hb xs. induction xs as [|x r IH]; intros st l Hst; simpl.
  - exact Hst.
  - unfold bind. specialize (Hb x st l Hst).
    destruct (body x st l) as [st1 l1]. simpl in Hb. apply IH. exact Hb.
Qed.

(** ** Validation *)

Section Validation.
Import Grid.

Lemma validate_quantity_iff (q : Q) : validate_quantity q = true <-> 0 < q.
Proof. exact (Qltb_lt 0 q). Qed.

Lemma validate_price_iff (q : Q) : validate_price q = true <-> 0 < q.
Proof. exact (Qltb_lt 0 q). Qed.

Lemma validate_iff (p : Params) :
  validate p = true <->
  validate_symbol (symbol p) = true /\
  0 < quantity_per_grid p /\ 0 < lower_bound p /\ 0 < upper_bound p /\
  lower_bound p < upper_bound p /\
  (0 < num_grids p)%Z /\ (0 < monitor_interval_seconds p)%Z.
Proof.
  unfold validate.
  rewrite <- validate_quantity_iff, <- !validate_price_iff.
  destruct (validate_symbol (symbol p)); simpl; [|intuition congruence].
  destruct (validate_quantity (quantity_per_grid p)); simpl; [|intuition congruence].
  destruct (validate_price (lower_bound p)); simpl; [|intuition congruence].
  destruct (validate_price (upper_bound p)); simpl; [|intuition congruence].
  destruct (Qle_bool (upper_bound p) (lower_bound p)) eqn:E.
  - apply Qle_bool_iff in E. split; [congruence|].
    intros (_ & _ & _ & _ & L & _). exfalso. exact (Qlt_not_le _ _ L E).
  - assert (L : lower_bound p < upper_bound p).
    { apply Qnot_le_lt. intro H. apply Qle_bool_iff in H. congruence. }
    destruct (Z.leb_spec (num_grids p) 0); [split; [congruence|lia]|].
    destruct (Z.leb_spec (monitor_interval_seconds p) 0);
      [split; [congruence|lia]|].
    tauto.
Qed.
End Validation.

(** ** Initial placement *)

Section GridInit.
Import Grid GridSpec.
Variable gw : Gateway.
Variable p : Params.

Lemma place_buy_log i st l :
  snd (place_buy gw p i st l) = l ++ [EvCreate (buy_request p i)].
Proof.
  unfold place_buy, bind, create_order.
  destruct (gw_create gw _ _); reflexivity.
Qed.

Lemma place_sell_log i st l :
  snd (place_sell gw p i st l) = l ++ [EvCreate (sell_request p i)].
Proof.
  unfold place_sell, bind, create_order.
  destruct (gw_create gw _ _); reflexivity.
Qed.

Lemma place_initial_orders_log l :
  snd (place_initial_orders gw p l) = l ++ map EvCreate (initial_requests p).
Proof.
  unfold place_initial_orders, bind, initial_requests.
  pose proof (for_each_log (place_buy gw p) (fun i => EvCreate (buy_request p i))
                place_buy_log (range (num_grids p)) initial_state l) as Hb.
  destruct (for_each _ (place_buy gw p) _ _) as [st1 l1]. simpl in Hb. subst l1.
  rewrite (for_each_log (place_sell gw p) (fun i => EvCreate (sell_request p i))
             place_sell_log).
  rewrite map_app, !map_map, <- app_assoc. reflexivity.
Qed.

Lemma initial_requests_length :
  List.length (initial_requests p) = (2 * Z.to_nat (num_grids p))%nat.
Proof.
  unfold initial_requests, range.
  rewrite length_app, !length_map, length_seq. lia.
Qed.

(** Counting the accepted requests of a placement loop. *)
Lemma for_each_placed (body : nat -> GridState -> M GridState)
      (req : nat -> OrderReq) :
  (forall i st l,
      snd (body i st l) = l ++ [EvCreate (req i)] /\
      placed (fst (body i st l))
      = (placed st + if is_ok (gw_create gw (List.length l) (req i))
                     then 1 else 0)%Z) ->
  forall xs st l,
    placed (fst (for_each xs body st l))
    = (placed st + Z.of_nat (count_ok gw (List.length l) (map req xs)))%Z.
Proof.
  intros Hb xs. induction xs as [|x r IH]; intros st l; simpl.
  - lia.
  - unfold bind. destruct (Hb x st l) as [Hl Hp].
    destruct (body x st l) as [st1 l1]. simpl in Hl, Hp. subst l1.
    rewrite IH, Hp, length_app. simpl.
    replace (List.length l + 1)%nat with (S (List.length l)) by lia.
    destruct (is_ok _); lia.
Qed.

Lemma place_buy_placed i st l :
  snd (place_buy gw p i st l) = l ++ [EvCreate (buy_request p i)] /\
  placed (fst (place_buy gw p i st l))
  = (placed st + if is_ok (gw_create gw (List.length l) (buy_request p i))
                 then 1 else 0)%Z.
Proof.
  split; [apply place_buy_log|].
  unfold place_buy, bind, create_order, buy_request, placed.
  destruct (gw_create gw _ _); simpl; lia.
Qed.

Lemma place_sell_placed i st l :
  snd (place_sell gw p i st l) = l ++ [EvCreate (sell_request p i)] /\
  placed (fst (place_sell gw p i st l))
  = (placed st + if is_ok (gw_create gw (List.length l) (sell_request p i))
                 then 1 else 0)%Z.
Proof.
  split; [apply place_sell_log|].
  unfold place_sell, bind, create_order, sell_request, placed.
  destruct (gw_create gw _ _); simpl; lia.
Qed.

Lemma count_ok_app t xs ys :
  count_ok gw t (xs ++ ys)
  = (count_ok gw t xs + count_ok gw (t + List.length xs) ys)%nat.
Proof.
  revert t. induction xs as [|x r IH]; intro t; simpl.
  - now rewrite Nat.add_0_r.
  - rewrite IH. replace (S t + List.length r)%nat with (t + S (List.length r))%nat by lia.
    lia.
Qed.

Lemma place_initial_orders_placed l :
  placed (fst (place_initial_orders gw p l))
  = Z.of_nat (count_ok gw (List.length l) (initial_requests p)).
Proof.
  unfold place_initial_orders, bind, initial_requests.
  pose proof (for_each_placed _ _ place_buy_placed (range (num_grids p))
                initial_state l) as Hp.
  pose proof (for_each_log (place_buy gw p) (fun i => EvCreate (buy_request p i))
                place_buy_log (range (num_grids p)) initial_state l) as Hl.
  destruct (for_each _ (place_buy gw p) _ _) as [st1 l1]. simpl in Hp, Hl.
  rewrite (for_each_placed _ _ place_sell_placed), Hp, count_ok_app.
  subst l1. rewrite length_app, !length_map. unfold placed. simpl. lia.
Qed.

Lemma populated_set (d : Dict.t TrackedOrder) k v (n : Z) :
  (0 <= n)%Z -> (0 <= n + 1)%Z /\ ((n + 1)%Z = 0%Z <-> Dict.set d k v = []).
Proof.
  intro H. split; [lia|]. split; [lia|].
  intro E. pose proof (set_length d k v) as [_ L]. rewrite E in L. simpl in L. lia.
Qed.

Lemma place_buy_populated i st l :
  populated st -> populated (fst (place_buy gw p i st l)).
Proof.
  intros [H0 H]. unfold place_buy, bind, create_order.
  destruct (gw_create gw _ _); simpl; try (split; assumption).
  unfold populated, placed in *. simpl.
  replace (total_buy_orders_placed st + 1 + total_sell_orders_placed st)%Z
    with (total_buy_orders_placed st + total_sell_orders_placed st + 1)%Z by lia.
  apply populated_set. assumption.
Qed.

Lemma place_sell_populated i st l :
  populated st -> populated (fst (place_sell gw p i st l)).
Proof.
  intros [H0 H]. unfold place_sell, bind, create_order.
  destruct (gw_create gw _ _); simpl; try (split; assumption).
  unfold populated, placed in *. simpl.
  replace (total_buy_orders_placed st + (total_sell_orders_placed st + 1))%Z
    with (total_buy_orders_placed st + total_sell_orders_placed st + 1)%Z by lia.
  apply populated_set. assumption.
Qed.

Lemma place_initial_orders_populated l :
  populated (fst (place_initial_orders gw p l)).
Proof.
  unfold place_initial_orders, bind.
  pose proof (for_each_inv (place_buy gw p) populated place_buy_populated
                (range (num_grids p)) initial_state l) as Hb.
  destruct (for_each _ (place_buy gw p) _ _) as [st1 l1].
  apply (for_each_inv (place_sell gw p) populated place_sell_populated).
  apply Hb. unfold populated, placed. simpl. split; [lia|tauto].
Qed.

Lemma place_buy_entries i st l :
  (Z.of_nat i < num_grids p)%Z ->
  Forall (initial_entry p) (Dict.values (grid_orders st)) ->
  Forall (initial_entry p) (Dict.values (grid_orders (fst (place_buy gw p i st l)))).
Proof.
  intros Hi H. unfold place_buy, bind, create_order.
  destruct (gw_create gw _ _); simpl; try assumption.
  apply values_set; [assumption|]. exists i. split; [assumption|]. now left.
Qed.

Lemma place_sell_entries i st l :
  (Z.of_nat i < num_grids p)%Z ->
  Forall (initial_entry p) (Dict.values (grid_orders st)) ->
  Forall (initial_entry p) (Dict.values (grid_orders (fst (place_sell gw p i st l)))).
Proof.
  intros Hi H. unfold place_sell, bind, create_order.
  destruct (gw_create gw _ _); simpl; try assumption.
  apply values_set; [assumption|]. exists i. split; [assumption|]. now right.
Qed.

(** A loop invariant for a body that is only run on elements of [xs]. *)
Lemma for_each_inv_in {A S} (body : A -> S -> M S) (I : S -> Prop) (xs : list A) :
  (forall x st l, In x xs -> I st -> I (fst (body x st l))) ->
  forall st l, I st -> I (fst (for_each xs body st l)).
Proof.
  induction xs as [|x r IH]; intros Hb st l Hst; simpl.
  - exact Hst.
  - unfold bind. pose proof (Hb x st l (or_introl eq_refl) Hst) as H1.
    destruct (body x st l) as [st1 l1]. simpl in H1.
    apply IH; [|exact H1]. intros y st' l' Hy. apply Hb. now right.
Qed.

Lemma in_range i n : In i (range n) -> (Z.of_nat i < n)%Z.
Proof. unfold range. rewrite in_seq. lia. Qed.

Lemma place_initial_orders_entries l :
  Forall (initial_entry p)
         (Dict.values (grid_orders (fst (place_initial_orders gw p l)))).
Proof.
  unfold place_initial_orders, bind.
  pose proof (for_each_inv_in (place_buy gw p)
                (fun st => Forall (initial_entry p) (Dict.values (grid_orders st)))
                (range (num_grids p))) as Hb.
  specialize (Hb (fun i st l Hi => place_buy_entries i st l (in_range _ _ Hi))
                 initial_state l (Forall_nil _)).
  destruct (for_each _ (place_buy gw p) _ _) as [st1 l1]. simpl in Hb.
  apply (for_each_inv_in (place_sell gw p)
           (fun st => Forall (initial_entry p) (Dict.values (grid_orders st))));
    [|exact Hb].
  intros i st l' Hi. apply place_sell_entries, in_range, Hi.
Qed.
End GridInit.

(** ** Claims on the initial placement *)

Section GridInitClaims.
Import Grid GridSpec.

Lemma inject_Z_pos (n : Z) : (0 < n)%Z -> 0 < inject_Z n.
Proof. intro H. change 0 with (inject_Z 0). now rewrite <- Zlt_Qlt. Qed.

Lemma grid_step_pos (p : Params) :
  lower_bound p < upper_bound p -> (0 < num_grids p)%Z -> 0 < grid_step p.
Proof.
  intros Hb Hn. unfold grid_step, price_range.
  apply Qlt_shift_div_l; [now apply inject_Z_pos | lra].
Qed.



(** C9: whatever the gateway answers, the initial placement sends all
    2*numGrids requests (a rejected one does not stop the others), the
    number of tracked placements is the number of accepted requests, and
    the engine returns None after the placement exactly when none of the
    requests was accepted; otherwise it goes on with the populated
    tracker. *)
Theorem grid_partial_ladder (gw : Gateway) (p : Params) (fuel : nat) (l : Log) :
  validate p = true ->
  snd (place_initial_orders gw p l) = l ++ map EvCreate (initial_requests p) /\
  List.length (initial_requests p) = (2 * Z.to_nat (num_grids p))%nat /\
  placed (fst (place_initial_orders gw p l))
  = Z.of_nat (count_ok gw (List.length l) (initial_requests p)) /\
  (fst (start_grid_trading gw p fuel l) = ReturnedNone <->
   count_ok gw (List.length l) (initial_requests p) = 0%nat) /\
  (count_ok gw (List.length l) (initial_requests p) <> 0%nat ->
   grid_orders (fst (place_initial_orders gw p l)) <> []).
Proof.
  intro Hv.
  pose proof (place_initial_orders_placed gw p l) as Hc.
  pose proof (place_initial_orders_populated gw p l) as [H0 He].
  split; [apply place_initial_orders_log|].
  split; [apply initial_requests_length|].
  split; [exact Hc|].
  split.
  - unfold start_grid_trading. rewrite Hv. unfold run_grid, bind.
    destruct (place_initial_orders gw p l) as [st l1]. simpl in Hc, H0, He.
    destruct (grid_orders st) as [|e r] eqn:Eg; simpl.
    + split; [|reflexivity]. intros _.
      assert (placed st = 0%Z) by (apply He; reflexivity). lia.
    + split.
      * destruct (monitor_loop gw p fuel 0%Z st l1) as [[[c st']|] l2];
          [|discriminate].
        destruct (cancel_remaining gw p st' l2). discriminate.
      * intro Hz. assert (E : placed st = 0%Z) by lia.
        apply He in E. discriminate.
  - intros Hnz E. apply He in E. lia.
Qed.

Lemma grid_partial_ladder_witness :
  validate Samples.grid_5 = true /\
  fst (start_grid_trading (Samples.reject_all 0) Samples.grid_5 3 [])
  = ReturnedNone.
Proof.
  split; [reflexivity|].
  apply (grid_partial_ladder (Samples.reject_all 0) Samples.grid_5 3 []);
    reflexivity.
Defined.

(** C4: when the symbol is malformed, or quantityPerLevel, lowerBound or
    upperBound is not positive, or upperBound <= lowerBound, or numGrids
    is not positive, the engine returns None and its log is the log it
    was started with: no gateway call is issued and no order is
    created. *)
Theorem grid_invalid_parameters (gw : Gateway) (p : Params) (fuel : nat) (l : Log) :
  validate_symbol (symbol p) = false \/
  ~ 0 < quantity_per_grid p \/ ~ 0 < lower_bound p \/ ~ 0 < upper_bound p \/
  upper_bound p <= lower_bound p \/ (num_grids p <= 0)%Z ->
  start_grid_trading gw p fuel l = (ReturnedNone, l).
Proof.
  intro H. unfold start_grid_trading.
  destruct (validate p) eqn:Hv; [|reflexivity].
  exfalso. apply validate_iff in Hv.
  destruct Hv as (Hs & Hq & Hl & Hu & Hlu & Hn & _).
  destruct H as [H|[H|[H|[H|[H|H]]]]];
    try congruence; try contradiction; try lia.
  exact (Qlt_not_le _ _ Hlu H).
Qed.

Lemma grid_invalid_parameters_witness :
  upper_bound Samples.grid_bad_bounds <= lower_bound Samples.grid_bad_bounds /\
  start_grid_trading (Samples.accept_all 0) Samples.grid_bad_bounds 3 []
  = (ReturnedNone, []).
Proof.
  assert (H : upper_bound Samples.grid_bad_bounds
              <= lower_bound Samples.grid_bad_bounds) by discriminate.
  split; [exact H|].
  apply (grid_invalid_parameters (Samples.accept_all 0)
           Samples.grid_bad_bounds 3 []).
  right. right. right. right. left. exact H.
Defined.
End GridInitClaims.

(** ** The monitoring cycle *)

Section GridCycle.
Import Grid GridSpec.
Variable gw : Gateway.
Variable p : Params.

Lemma out_of_bounds_false (x : Q) :
  out_of_bounds p x = false <-> lower_bound p <= x /\ x <= upper_bound p.
Proof.
  unfold out_of_bounds. rewrite orb_false_iff, !Qltb_ge. tauto.
Qed.

Lemma out_of_bounds_true (x : Q) :
  out_of_bounds p x = true <-> x < lower_bound p \/ upper_bound p < x.
Proof.
  unfold out_of_bounds. rewrite orb_true_iff, !Qltb_lt. tauto.
Qed.

(** What one pass of the replacement does, by cases. *)
Lemma replace_filled_cases order_id o st l :
  (out_of_bounds p (mirror_price p o) = true /\
   replace_filled gw p order_id o st l = (record_fill order_id o st, l)) \/
  (out_of_bounds p (mirror_price p o) = false /\
   exists resp,
     gw_create gw (List.length l) (mirror_request p o) = Ok resp /\
     replace_filled gw p order_id o st l
     = (track_replacement p (orderId resp) o (record_fill order_id o st),
        l ++ [EvCreate (mirror_request p o)])) \/
  (out_of_bounds p (mirror_price p o) = false /\
   is_ok (gw_create gw (List.length l) (mirror_request p o)) = false /\
   replace_filled gw p order_id o st l
   = (record_fill order_id o st, l ++ [EvCreate (mirror_request p o)])).
Proof.
  unfold replace_filled, mirror_request.
  destruct (out_of_bounds p (mirror_price p o)); [left; split; reflexivity|].
  right. unfold bind, create_order.
  destruct (gw_create gw _ _) as [resp| |] eqn:E.
  - left. split; [reflexivity|]. exists resp. split; reflexivity.
  - right. repeat split; reflexivity.
  - right. repeat split; reflexivity.
Qed.

Lemma replace_filled_log order_id o st l :
  exists rs, snd (replace_filled gw p order_id o st l) = l ++ map EvCreate rs.
Proof.
  destruct (replace_filled_cases order_id o st l)
    as [[_ E]|[(_ & resp & _ & E)|(_ & _ & E)]]; rewrite E; simpl.
  - exists []. now rewrite app_nil_r.
  - exists [mirror_request p o]. reflexivity.
  - exists [mirror_request p o]. reflexivity.
Qed.

Lemma process_filled_log ids st l :
  exists rs, snd (process_filled gw p ids st l) = l ++ map EvCreate rs.
Proof.
  revert st l. induction ids as [|k r IH]; intros st l; simpl.
  - exists []. now rewrite app_nil_r.
  - destruct (Dict.get (grid_orders st) k) as [o|].
    + unfold bind. destruct (replace_filled_log k o st l) as [rs1 E1].
      destruct (replace_filled gw p k o st l) as [st1 l1]. simpl in E1. subst l1.
      destruct (IH st1 (l ++ map EvCreate rs1)) as [rs2 E2].
      exists (rs1 ++ rs2). rewrite E2, map_app, app_assoc. reflexivity.
    + exists []. now rewrite app_nil_r.
Qed.

(** A cycle fetches the open orders once and then only creates orders. *)
Lemma monitor_cycle_log st l :
  exists rs,
    snd (monitor_cycle gw p st l)
    = l ++ EvOpenOrders (Str.upper (symbol p)) :: map EvCreate rs.
Proof.
  unfold monitor_cycle, bind, get_open_orders.
  destruct (gw_open_orders gw _ _) as [ids| |].
  - destruct (process_filled_log (filled_order_ids ids st) st
                (l ++ [EvOpenOrders (Str.upper (symbol p))])) as [rs E].
    exists rs. rewrite E, <- app_assoc. reflexivity.
  - exists []. reflexivity.
  - exists []. reflexivity.
Qed.

(** *** Invariants of the tracker *)

Section TrackerInvariant.
Variable I : Dict.t TrackedOrder -> Prop.
Hypothesis I_del : forall d k, I d -> I (Dict.del d k).
Hypothesis I_mirror :
  forall d k o,
    I d -> out_of_bounds p (mirror_price p o) = false ->
    I (Dict.set d k (mirror_entry p o)).

Lemma replace_filled_inv order_id o st l :
  I (grid_orders st) ->
  I (grid_orders (fst (replace_filled gw p order_id o st l))).
Proof.
  intro H.
  destruct (replace_filled_cases order_id o st l)
    as [[_ E]|[(B & resp & _ & E)|(_ & _ & E)]]; rewrite E; simpl; auto.
  apply (I_mirror _ (orderId resp) o); auto.
Qed.

Lemma process_filled_inv ids st l :
  I (grid_orders st) -> I (grid_orders (fst (process_filled gw p ids st l))).
Proof.
  revert st l. induction ids as [|k r IH]; intros st l H; simpl; [exact H|].
  destruct (Dict.get (grid_orders st) k) as [o|]; [|exact H].
  unfold bind. pose proof (replace_filled_inv k o st l H) as H1.
  destruct (replace_filled gw p k o st l) as [st1 l1]. apply IH, H1.
Qed.

Lemma monitor_cycle_inv st l :
  I (grid_orders st) -> I (grid_orders (fst (monitor_cycle gw p st l))).
Proof.
  intro H. unfold monitor_cycle, bind, get_open_orders.
  destruct (gw_open_orders gw _ _); simpl; auto.
  apply process_filled_inv, H.
Qed.

Lemma monitor_loop_inv fuel c st l c' st' :
  I (grid_orders st) ->
  fst (monitor_loop gw p fuel c st l) = Some (c', st') ->
  I (grid_orders st').
Proof.
  revert c st l. induction fuel as [|fuel IH]; intros c st l H; simpl;
    [discriminate|].
  unfold bind, stop_requested.
  destruct (gw_stop gw (List.length l)); simpl.
  - intro E. inversion E; subst. exact H.
  - pose proof (monitor_cycle_inv st l H) as H1.
    destruct (monitor_cycle gw p st l) as [st1 l1]. simpl in H1.
    destruct (gw_stop gw (List.length l1)); simpl; apply IH, H1.
Qed.
End TrackerInvariant.

Lemma keys_NoDup_cycle st l :
  NoDup (Dict.keys (grid_orders st)) ->
  NoDup (Dict.keys (grid_orders (fst (monitor_cycle gw p st l)))).
Proof.
  apply (monitor_cycle_inv (fun d => NoDup (Dict.keys d))).
  - intros d k. apply keys_del_NoDup.
  - intros d k o H _. now apply keys_set_NoDup.
Qed.

Lemma all_in_bounds_cycle st l :
  all_in_bounds p st -> all_in_bounds p (fst (monitor_cycle gw p st l)).
Proof.
  apply (monitor_cycle_inv (fun d => Forall (in_bounds p) (Dict.values d))).
  - intros d k. apply values_del.
  - intros d k o H B. apply values_set; [exact H|].
    apply out_of_bounds_false in B. exact B.
Qed.

Lemma all_in_bounds_loop fuel c st l c' st' :
  all_in_bounds p st ->
  fst (monitor_loop gw p fuel c st l) = Some (c', st') ->
  all_in_bounds p st'.
Proof.
  apply (monitor_loop_inv (fun d => Forall (in_bounds p) (Dict.values d))).
  - intros d k. apply values_del.
  - intros d k o H B. apply values_set; [exact H|].
    apply out_of_bounds_false in B. exact B.
Qed.
End GridCycle.

(** ** Claims on the price bounds and on the mirror orders *)

Section GridBounds.
Import Grid GridSpec.

Lemma level_offset_bounds (p : Params) (i : nat) :
  lower_bound p < upper_bound p -> (0 < num_grids p)%Z ->
  (Z.of_nat i < num_grids p)%Z ->
  0 <= inject_Z (Z.of_nat i) * grid_step p /\
  inject_Z (Z.of_nat i) * grid_step p <= upper_bound p - lower_bound p.
Proof.
  intros Hb Hn Hi.
  pose proof (grid_step_pos p Hb Hn) as Hs.
  assert (H0 : 0 <= inject_Z (Z.of_nat i)).
  { change 0 with (inject_Z 0). rewrite <- Zle_Qle. lia. }
  split.
  - apply Qmult_le_0_compat; [exact H0 | apply Qlt_le_weak, Hs].
  - apply Qle_trans with (inject_Z (num_grids p) * grid_step p).
    + apply Qmult_le_compat_r; [|apply Qlt_le_weak, Hs].
      rewrite <- Zle_Qle. lia.
    + unfold grid_step, price_range. apply Qle_lteq. right. field.
      intro E. pose proof (inject_Z_pos _ Hn) as Hp. rewrite E in Hp.
      exact (Qlt_irrefl _ Hp).
Qed.

Lemma initial_entry_in_bounds (p : Params) (o : TrackedOrder) :
  lower_bound p < upper_bound p -> (0 < num_grids p)%Z ->
  round2 (lower_bound p) == lower_bound p ->
  round2 (upper_bound p) == upper_bound p ->
  initial_entry p o -> in_bounds p o.
Proof.
  intros Hb Hn Hl Hu (i & Hi & [E|E]); subst o; unfold in_bounds; simpl;
    destruct (level_offset_bounds p i Hb Hn Hi) as [H0 H1];
    unfold buy_price, sell_price;
    (split; [apply round2_ge | apply round2_le]); try assumption; lra.
Qed.



End GridBounds.

Section GridMirror.
Import Grid GridSpec.
Variable gw : Gateway.
Variable p : Params.

Lemma keys_get {V} (d : Dict.t V) k :
  In k (Dict.keys d) -> exists v, Dict.get d k = Some v.
Proof.
  induction d as [|[k' v'] r IH]; simpl; [tauto|].
  destruct (Z.eqb_spec k k'); [eauto|].
  intros [E|H]; [congruence|auto].
Qed.

Lemma keys_del_other {V} (d : Dict.t V) k k0 :
  In k (Dict.keys d) -> k <> k0 -> In k (Dict.keys (Dict.del d k0)).
Proof.
  induction d as [|[k' v'] r IH]; simpl; [tauto|].
  destruct (Z.eqb_spec k0 k'); simpl; intros [E|H] N; subst; auto; congruence.
Qed.

Lemma keys_set_other {V} (d : Dict.t V) k k0 v :
  In k (Dict.keys d) -> In k (Dict.keys (Dict.set d k0 v)).
Proof.
  induction d as [|[k' v'] r IH]; simpl; [tauto|].
  destruct (Z.eqb_spec k0 k'); simpl; intros [E|H]; subst; auto.
Qed.

Lemma replace_filled_fills order_id o st l :
  fills (fst (replace_filled gw p order_id o st l)) = (fills st + 1)%Z.
Proof.
  destruct (replace_filled_cases gw p order_id o st l)
    as [[_ E]|[(_ & resp & _ & E)|(_ & _ & E)]]; rewrite E;
    unfold fills; simpl; destruct (side o); lia.
Qed.

Lemma replace_filled_keeps order_id o st l k :
  In k (Dict.keys (grid_orders st)) -> k <> order_id ->
  In k (Dict.keys (grid_orders (fst (replace_filled gw p order_id o st l)))).
Proof.
  intros H N.
  destruct (replace_filled_cases gw p order_id o st l)
    as [[_ E]|[(_ & resp & _ & E)|(_ & _ & E)]]; rewrite E; simpl;
    try apply keys_set_other; now apply keys_del_other.
Qed.

(** Every order of a duplicate-free list of tracked ids is counted. *)
Lemma process_filled_fills ids st l :
  NoDup ids -> (forall k, In k ids -> In k (Dict.keys (grid_orders st))) ->
  fills (fst (process_filled gw p ids st l))
  = (fills st + Z.of_nat (List.length ids))%Z.
Proof.
  revert st l. induction ids as [|k r IH]; intros st l Hnd Hin.
  - simpl. lia.
  - inversion Hnd as [|? ? Hk Hr]; subst.
    destruct (keys_get (grid_orders st) k (Hin k (or_introl eq_refl))) as [o Ho].
    cbn [process_filled]. rewrite Ho. unfold bind.
    pose proof (replace_filled_fills k o st l) as Hf.
    pose proof (fun k0 => replace_filled_keeps k o st l k0) as Hkeep.
    destruct (replace_filled gw p k o st l) as [st1 l1]. simpl in Hf, Hkeep.
    rewrite IH; [rewrite Hf; cbn [List.length]; lia | exact Hr |].
    intros k0 H0. apply Hkeep; [apply Hin; now right|].
    intro E. subst. contradiction.
Qed.

Lemma filled_order_ids_in ids st k :
  In k (filled_order_ids ids st) <->
  In k (Dict.keys (grid_orders st)) /\ ~ In k ids.
Proof.
  unfold filled_order_ids. rewrite filter_In, negb_true_iff.
  split; intros [H1 H2]; split; try assumption.
  - intro Hin. assert (E : existsb (Z.eqb k) ids = true).
    { apply existsb_exists. exists k. split; [exact Hin | apply Z.eqb_refl]. }
    congruence.
  - destruct (existsb (Z.eqb k) ids) eqn:E; [|reflexivity].
    apply existsb_exists in E. destruct E as (x & Hx & Ex).
    apply Z.eqb_eq in Ex. subst. contradiction.
Qed.
End GridMirror.

Section GridMirrorClaim.
Import Grid GridSpec.



End GridMirrorClaim.

(** ** The monitoring loop, the shutdown and the summary *)

Section GridLoop.
Import Grid GridSpec.
Variable gw : Gateway.
Variable p : Params.

Lemma fetches_app l1 l2 : fetches (l1 ++ l2) = (fetches l1 + fetches l2)%nat.
Proof. unfold fetches. now rewrite filter_app, length_app. Qed.

Lemma fetches_creates rs : fetches (map EvCreate rs) = 0%nat.
Proof. induction rs as [|r rs IH]; [reflexivity | exact IH]. Qed.

(** The loop returns only when it has seen the stop request. *)
Lemma monitor_loop_exit fuel c st l c' st' :
  fst (monitor_loop gw p fuel c st l) = Some (c', st') ->
  gw_stop gw (List.length (snd (monitor_loop gw p fuel c st l))) = true.
Proof.
  revert c st l. induction fuel as [|fuel IH]; intros c st l; simpl;
    [discriminate|].
  unfold bind, stop_requested.
  destruct (gw_stop gw (List.length l)) eqn:Es; simpl; [intros _; exact Es|].
  destruct (monitor_cycle gw p st l) as [st1 l1].
  destruct (gw_stop gw (List.length l1)); simpl; apply IH.
Qed.

Lemma fetches_cycle s rs l2 :
  fetches (EvOpenOrders s :: map EvCreate rs ++ l2) = S (fetches l2).
Proof.
  change (EvOpenOrders s :: map EvCreate rs ++ l2)
    with ([EvOpenOrders s] ++ map EvCreate rs ++ l2).
  rewrite !fetches_app, fetches_creates. reflexivity.
Qed.

(** Every iteration fetches the open orders once and is counted. *)
Lemma monitor_loop_cycles fuel c st l c' st' :
  fst (monitor_loop gw p fuel c st l) = Some (c', st') ->
  exists l2,
    snd (monitor_loop gw p fuel c st l) = l ++ l2 /\
    c' = (c + Z.of_nat (fetches l2))%Z.
Proof.
  revert c st l. induction fuel as [|fuel IH]; intros c st l; simpl;
    [discriminate|].
  unfold bind, stop_requested.
  destruct (gw_stop gw (List.length l)); simpl.
  - intro E. inversion E; subst. exists []. rewrite app_nil_r.
    split; [reflexivity | simpl; lia].
  - destruct (monitor_cycle_log gw p st l) as [rs Hl].
    destruct (monitor_cycle gw p st l) as [st1 l1]. simpl in Hl. subst l1.
    destruct (gw_stop gw _); simpl; intro E;
      destruct (IH _ _ _ E) as (l2 & E2 & Ec); rewrite E2.
    + exists (EvOpenOrders (Str.upper (symbol p)) :: map EvCreate rs ++ l2).
      split; [now rewrite <- app_assoc|].
      rewrite fetches_cycle. lia.
    + exists (EvOpenOrders (Str.upper (symbol p))
                :: map EvCreate rs ++ EvSleep (monitor_interval_seconds p) :: l2).
      split; [rewrite <- !app_assoc; reflexivity|].
      rewrite fetches_cycle.
      change (EvSleep (monitor_interval_seconds p) :: l2)
        with ([EvSleep (monitor_interval_seconds p)] ++ l2).
      rewrite fetches_app. simpl. lia.
Qed.

(** Once the stop request stands, the loop returns within the fuel that
    the time of the request calls for. *)
Lemma monitor_loop_terminates T fuel c st l :
  (forall t, (T <= t)%nat -> gw_stop gw t = true) ->
  (T - List.length l < fuel)%nat ->
  fst (monitor_loop gw p fuel c st l) <> None.
Proof.
  intro Hstop. revert c st l.
  induction fuel as [|fuel IH]; intros c st l Hf; [lia|]. simpl.
  unfold bind, stop_requested.
  destruct (gw_stop gw (List.length l)) eqn:Es; simpl; [discriminate|].
  assert (Hl : (List.length l < T)%nat).
  { destruct (Nat.lt_ge_cases (List.length l) T) as [H|H]; [exact H|].
    rewrite (Hstop _ H) in Es. discriminate. }
  destruct (monitor_cycle_log gw p st l) as [rs Hc].
  destruct (monitor_cycle gw p st l) as [st1 l1]. simpl in Hc. subst l1.
  destruct (gw_stop gw (List.length (l ++ _))); simpl; apply IH;
    repeat (rewrite length_app; simpl); lia.
Qed.

(** Without a stop request the loop goes on, whatever the gateway
    answers. *)
Lemma monitor_loop_runs fuel c st l :
  (forall t, gw_stop gw t = false) ->
  fst (monitor_loop gw p fuel c st l) = None.
Proof.
  intro Hstop. revert c st l.
  induction fuel as [|fuel IH]; intros c st l; simpl; [reflexivity|].
  unfold bind, stop_requested. rewrite Hstop.
  destruct (monitor_cycle gw p st l) as [st1 l1]. rewrite Hstop. simpl.
  apply IH.
Qed.

Lemma cancel_remaining_log st l :
  snd (cancel_remaining gw p st l)
  = l ++ map (EvCancel (Str.upper (symbol p))) (Dict.keys (grid_orders st)).
Proof.
  unfold cancel_remaining. apply for_each_log.
  intros k n l'. unfold cancel_one, bind, cancel_order.
  destruct (gw_cancel gw _ _ _); reflexivity.
Qed.

Lemma cancels_app oid l1 l2 :
  cancels oid (l1 ++ l2) = (cancels oid l1 + cancels oid l2)%nat.
Proof. unfold cancels. now rewrite filter_app, length_app. Qed.

Lemma cancels_absent s oid ks :
  ~ In oid ks -> cancels oid (map (EvCancel s) ks) = 0%nat.
Proof.
  induction ks as [|k r IH]; intro H; [reflexivity|].
  unfold cancels in *. simpl.
  destruct (Z.eqb_spec k oid) as [E|N].
  - exfalso. apply H. now left.
  - apply IH. intro Hin. apply H. now right.
Qed.

Lemma cancels_once s oid ks :
  NoDup ks -> In oid ks -> cancels oid (map (EvCancel s) ks) = 1%nat.
Proof.
  induction ks as [|k r IH]; intros Hnd Hin; [destruct Hin|].
  inversion Hnd as [|? ? Hk Hr]; subst.
  change (map (EvCancel s) (k :: r)) with ([EvCancel s k] ++ map (EvCancel s) r).
  rewrite cancels_app. unfold cancels at 1. simpl.
  destruct (Z.eqb_spec k oid) as [E|N].
  - subst. rewrite cancels_absent; [reflexivity | exact Hk].
  - destruct Hin as [E|Hin]; [congruence|]. simpl. now apply IH.
Qed.
End GridLoop.

Section GridShutdownClaims.
Import Grid GridSpec.

(** The keys of the tracker stay distinct throughout a session. *)
Lemma session_keys_NoDup (gw : Gateway) (p : Params) (l : Log) :
  NoDup (Dict.keys (grid_orders (fst (place_initial_orders gw p l)))) /\
  forall fuel c' st',
    fst (monitor_loop gw p fuel 0%Z (fst (place_initial_orders gw p l))
                      (snd (place_initial_orders gw p l)))
    = Some (c', st') ->
    NoDup (Dict.keys (grid_orders st')).
Proof.
  assert (H : NoDup (Dict.keys (grid_orders (fst (place_initial_orders gw p l))))).
  { unfold place_initial_orders, bind.
    pose proof (for_each_inv (place_buy gw p)
                  (fun st => NoDup (Dict.keys (grid_orders st)))) as Hb.
    pose proof (for_each_inv (place_sell gw p)
                  (fun st => NoDup (Dict.keys (grid_orders st)))) as Hs.
    assert (Ib : forall i st l0, NoDup (Dict.keys (grid_orders st)) ->
                   NoDup (Dict.keys (grid_orders (fst (place_buy gw p i st l0))))).
    { intros i st l0 Hst. unfold place_buy, bind, create_order.
      destruct (gw_create gw _ _); simpl; try assumption.
      now apply keys_set_NoDup. }
    assert (Is : forall i st l0, NoDup (Dict.keys (grid_orders st)) ->
                   NoDup (Dict.keys (grid_orders (fst (place_sell gw p i st l0))))).
    { intros i st l0 Hst. unfold place_sell, bind, create_order.
      destruct (gw_create gw _ _); simpl; try assumption.
      now apply keys_set_NoDup. }
    specialize (Hb Ib (range (num_grids p)) initial_state l (NoDup_nil _)).
    destruct (for_each _ (place_buy gw p) _ _) as [st1 l1].
    apply (Hs Is), Hb. }
  split; [exact H|].
  intros fuel c' st'.
  apply (monitor_loop_inv gw p (fun d => NoDup (Dict.keys d))); [| |exact H].
  - intros d k. apply keys_del_NoDup.
  - intros d k o Hd _. now apply keys_set_NoDup.
Qed.

(** C10: a summary returned by the engine has success = True and
    total_trades = buy_fills + sell_fills, whatever the gateway answered
    during the session. *)
Theorem grid_summary_success (gw : Gateway) (p : Params) (fuel : nat)
        (l : Log) (s : Summary) :
  fst (start_grid_trading gw p fuel l) = Returned s ->
  success s = true /\ total_trades s = (buy_fills s + sell_fills s)%Z.
Proof.
  unfold start_grid_trading.
  destruct (validate p); [|discriminate].
  unfold run_grid, bind.
  destruct (place_initial_orders gw p l) as [st l1].
  destruct (List.length (grid_orders st) =? 0)%nat; [discriminate|].
  destruct (monitor_loop gw p fuel 0%Z st l1) as [[[c st']|] l2];
    [|discriminate].
  destruct (cancel_remaining gw p st' l2) as [n l3]. simpl.
  intro E. inversion E. split; reflexivity.
Qed.

Lemma grid_summary_success_witness :
  fst (start_grid_trading (Samples.flaky 12) Samples.grid_5 5 [])
  = Returned (mkSummary true 1 5 5 0 0 0 0) /\
  success (mkSummary true 1 5 5 0 0 0 0) = true.
Proof.
  assert (H : fst (start_grid_trading (Samples.flaky 12) Samples.grid_5 5 [])
              = Returned (mkSummary true 1 5 5 0 0 0 0)) by reflexivity.
  split; [exact H|].
  exact (proj1 (grid_summary_success _ _ _ _ _ H)).
Defined.



End GridShutdownClaims.

(** ** The TWAP engine *)

Section TwapFacts.
Import Twap TwapSpec.
Variable gw : Gateway.
Variable p : Params.

Lemma validate_twap_iff :
  validate p = true <->
  validate_symbol (symbol p) = true /\ validate_side (side p) = true /\
  0 < total_quantity p /\ (0 < num_orders p)%Z /\ (0 < interval_seconds p)%Z.
Proof.
  unfold validate. rewrite <- validate_quantity_iff.
  destruct (validate_symbol (symbol p)); simpl; [|intuition congruence].
  destruct (validate_side (side p)); simpl; [|intuition congruence].
  destruct (validate_quantity (total_quantity p)); simpl; [|intuition congruence].
  destruct (Z.leb_spec (num_orders p) 0); [split; [congruence|lia]|].
  destruct (Z.leb_spec (interval_seconds p) 0); [split; [congruence|lia]|].
  tauto.
Qed.

Lemma qsum_snoc (l : list Q) (x : Q) : qsum (l ++ [x]) = qsum l + x.
Proof. unfold qsum. now rewrite fold_left_app. Qed.

Lemma fold_plus_repeat (x a : Q) (n : nat) :
  fold_left Qplus (repeat x n) a == a + inject_Z (Z.of_nat n) * x.
Proof.
  revert a. induction n as [|n IH]; intro a.
  - simpl. ring.
  - cbn [repeat fold_left]. rewrite IH, Nat2Z.inj_succ.
    unfold Z.succ. rewrite inject_Z_plus. ring.
Qed.

Lemma qsum_repeat (x : Q) (n : nat) :
  qsum (repeat x n) == inject_Z (Z.of_nat n) * x.
Proof. unfold qsum. rewrite fold_plus_repeat. ring. Qed.

(** *** The log of a run *)

Lemma run_chunk_log i st l :
  snd (run_chunk gw p i st l)
  = l ++ EvCreate (chunk_order p)
      :: (if (Z.of_nat i + 1 <? num_orders p)%Z
          then [EvSleep (interval_seconds p)] else []).
Proof.
  unfold run_chunk, bind, create_order.
  destruct (Z.of_nat i + 1 <? num_orders p)%Z; simpl.
  - unfold bind, sleep, ret. now rewrite <- app_assoc.
  - reflexivity.
Qed.

Lemma run_chunks_from_log k a st l :
  Z.of_nat (a + k) = num_orders p ->
  snd (for_each (seq a k) (run_chunk gw p) st l) = l ++ schedule p k.
Proof.
  revert a st l. induction k as [|k IH]; intros a st l Hn.
  - simpl. now rewrite app_nil_r.
  - cbn [seq for_each]. unfold bind.
    pose proof (run_chunk_log a st l) as H1.
    destruct (run_chunk gw p a st l) as [st1 l1]. simpl in H1. subst l1.
    rewrite IH by (rewrite <- Hn; f_equal; lia).
    destruct k as [|k].
    + destruct (Z.ltb_spec (Z.of_nat a + 1) (num_orders p)); [lia|].
      simpl. now rewrite <- app_assoc.
    + destruct (Z.ltb_spec (Z.of_nat a + 1) (num_orders p)); [|lia].
      cbn [schedule]. rewrite <- app_assoc. reflexivity.
Qed.

Lemma run_chunks_log l :
  (0 < num_orders p)%Z ->
  snd (run_chunks gw p l) = l ++ schedule p (Z.to_nat (num_orders p)).
Proof.
  intro Hn. unfold run_chunks, range. apply run_chunks_from_log.
  simpl. lia.
Qed.

Lemma schedule_creates n :
  creates (schedule p n) = repeat (chunk_order p) n.
Proof.
  induction n as [|[|n] IH]; try reflexivity.
  unfold creates in *.
  change (schedule p (S (S n)))
    with (EvCreate (chunk_order p) :: EvSleep (interval_seconds p)
            :: schedule p (S n)).
  cbn [flat_map app]. rewrite IH. reflexivity.
Qed.

Lemma schedule_sleeps n :
  sleeps (schedule p n) = repeat (interval_seconds p) (n - 1).
Proof.
  induction n as [|[|n] IH]; try reflexivity.
  unfold sleeps in *.
  change (schedule p (S (S n)))
    with (EvCreate (chunk_order p) :: EvSleep (interval_seconds p)
            :: schedule p (S n)).
  cbn [flat_map app]. rewrite IH. simpl. now rewrite Nat.sub_0_r.
Qed.

Lemma schedule_last n :
  exists l0, schedule p (S n) = l0 ++ [EvCreate (chunk_order p)].
Proof.
  induction n as [|n [l0 IH]].
  - exists []. reflexivity.
  - exists (EvCreate (chunk_order p) :: EvSleep (interval_seconds p) :: l0).
    change (schedule p (S (S n)))
      with (EvCreate (chunk_order p) :: EvSleep (interval_seconds p)
              :: schedule p (S n)).
    rewrite IH. reflexivity.
Qed.

Lemma submitted_quantity_schedule :
  (0 < num_orders p)%Z ->
  submitted_quantity (schedule p (Z.to_nat (num_orders p))) == total_quantity p.
Proof.
  intro Hn. unfold submitted_quantity.
  rewrite schedule_creates, map_repeat, qsum_repeat, Z2Nat.id by lia.
  unfold chunk_order, chunk_quantity. simpl. field.
  intro E. pose proof (inject_Z_pos _ Hn) as Hp. rewrite E in Hp.
  exact (Qlt_irrefl _ Hp).
Qed.

(** *** The state of a run *)

Lemma record_outcome_consistent n r st :
  consistent st -> consistent (record_outcome n r st).
Proof.
  intros [Hq Hr]. destruct r as [resp| |]; simpl; try (split; assumption).
  split; cbn [total_executed_qty st_executed_orders].
  - rewrite map_app. cbn [map]. rewrite qsum_snoc, Hq. reflexivity.
  - apply Forall_app. split; [exact Hr|]. constructor; [reflexivity|constructor].
Qed.

Lemma run_chunk_state i st l :
  fst (run_chunk gw p i st l)
  = record_outcome (Z.of_nat i + 1)%Z
                   (gw_create gw (List.length l) (chunk_order p)) st.
Proof.
  unfold run_chunk, bind, create_order.
  destruct (Z.of_nat i + 1 <? num_orders p)%Z; reflexivity.
Qed.

Lemma run_chunks_consistent l : consistent (fst (run_chunks gw p l)).
Proof.
  unfold run_chunks.
  apply (for_each_inv (run_chunk gw p) consistent).
  - intros i st l0 H. rewrite run_chunk_state.
    now apply record_outcome_consistent.
  - split; [reflexivity | constructor].
Qed.

Lemma for_each_measure {A S} (body : A -> S -> M S) (m : S -> nat) :
  (forall x st l, m (fst (body x st l)) = Datatypes.S (m st)) ->
  forall xs st l,
    m (fst (for_each xs body st l)) = (m st + List.length xs)%nat.
Proof.
  intros Hb xs. induction xs as [|x r IH]; intros st l; simpl; [lia|].
  unfold bind. specialize (Hb x st l).
  destruct (body x st l) as [st1 l1]. simpl in Hb. rewrite IH, Hb. lia.
Qed.

Lemma run_chunks_done l :
  chunks_done (fst (run_chunks gw p l)) = Z.to_nat (num_orders p).
Proof.
  unfold run_chunks, range.
  rewrite (for_each_measure (run_chunk gw p) chunks_done).
  - rewrite length_seq. reflexivity.
  - intros i st l0. rewrite run_chunk_state. unfold chunks_done.
    destruct (gw_create gw _ _); simpl; rewrite length_app; simpl; lia.
Qed.

Lemma run_chunks_all_failed l :
  (forall t r, is_ok (gw_create gw t r) = false) ->
  st_executed_orders (fst (run_chunks gw p l)) = [].
Proof.
  intro Hf. unfold run_chunks.
  apply (for_each_inv (run_chunk gw p) (fun st => st_executed_orders st = [])).
  - intros i st l0 H. rewrite run_chunk_state.
    specialize (Hf (List.length l0) (chunk_order p)).
    destruct (gw_create gw _ _); simpl; [discriminate | exact H | exact H].
  - reflexivity.
Qed.
End TwapFacts.

Section TwapClaims.
Import Twap TwapSpec.

Lemma execute_twap_order_summary gw p l s :
  fst (execute_twap_order gw p l) = Some s ->
  validate p = true /\ s = summarize p (fst (run_chunks gw p l)).
Proof.
  unfold execute_twap_order.
  destruct (validate p); [|discriminate].
  unfold bind. destruct (run_chunks gw p l) as [st l1]. simpl.
  intro E. inversion E. split; reflexivity.
Qed.





End TwapClaims.

Section NoAbortClaim.
Import Grid GridSpec.

(** How a call of the grid engine can end. *)
Lemma start_grid_trading_ends (gw : Gateway) (p : Params) (fuel : nat) (l : Log) :
  match fst (start_grid_trading gw p fuel l) with
  | ReturnedNone =>
      validate p = false \/
      count_ok gw (List.length l) (initial_requests p) = 0%nat
  | Returned _ => exists t, gw_stop gw t = true
  | StillRunning => True
  end.
Proof.
  unfold start_grid_trading.
  destruct (validate p); [|left; reflexivity].
  pose proof (place_initial_orders_placed gw p l) as Hc.
  pose proof (place_initial_orders_populated gw p l) as [H0 He].
  unfold run_grid, bind.
  destruct (place_initial_orders gw p l) as [st l1]. simpl in Hc, H0, He.
  destruct (grid_orders st) as [|e r] eqn:Eg; simpl.
  - right. assert (placed st = 0%Z) by (apply He; reflexivity). lia.
  - pose proof (monitor_loop_exit gw p fuel 0%Z st l1) as Hx.
    destruct (monitor_loop gw p fuel 0%Z st l1) as [[[c st']|] l2];
      [|exact I].
    destruct (cancel_remaining gw p st' l2) as [n l3]. simpl.
    exists (List.length l2). exact (Hx c st' eq_refl).
Qed.

(** C7, amended: in the grid engine the monitoring loop returns only when
    the stop request is observed, each of its iterations is counted and
    fetches the open orders once, it returns once the stop request stands
    given enough fuel, and without a stop request it never returns, all of
    it whatever the gateway answers; in the TWAP engine every one of the
    numChunks chunks is submitted and recorded as executed or as failed,
    whatever the gateway answers.  A call of the grid engine ends with a
    summary only after a stop request, and with None only for invalid
    parameters or when none of the initial orders was accepted. *)
Theorem engines_survive_gateway_errors :
  (forall gw p fuel c st l c' st',
      fst (monitor_loop gw p fuel c st l) = Some (c', st') ->
      gw_stop gw (List.length (snd (monitor_loop gw p fuel c st l))) = true /\
      exists l2,
        snd (monitor_loop gw p fuel c st l) = l ++ l2 /\
        c' = (c + Z.of_nat (fetches l2))%Z) /\
  (forall gw p T fuel c st l,
      (forall t, (T <= t)%nat -> gw_stop gw t = true) ->
      (T - List.length l < fuel)%nat ->
      fst (monitor_loop gw p fuel c st l) <> None) /\
  (forall gw p fuel c st l,
      (forall t, gw_stop gw t = false) ->
      fst (monitor_loop gw p fuel c st l) = None) /\
  (forall gw p fuel l,
      match fst (start_grid_trading gw p fuel l) with
      | ReturnedNone =>
          validate p = false \/
          count_ok gw (List.length l) (initial_requests p) = 0%nat
      | Returned _ => exists t, gw_stop gw t = true
      | StillRunning => True
      end) /\
  (forall gw p l,
      Twap.validate p = true ->
      exists s,
        fst (Twap.execute_twap_order gw p l) = Some s /\
        snd (Twap.execute_twap_order gw p l)
        = l ++ TwapSpec.schedule p (Z.to_nat (Twap.num_orders p)) /\
        Z.of_nat (List.length
                    (creates (TwapSpec.schedule p (Z.to_nat (Twap.num_orders p)))))
        = Twap.num_orders p /\
        (Twap.executed_chunks s + Twap.failed_chunks s)%Z = Twap.num_orders p).
Proof.
  split; [|split; [|split; [|split]]].
  - intros gw p fuel c st l c' st' H. split.
    + eapply monitor_loop_exit, H.
    + eapply monitor_loop_cycles, H.
  - intros gw p T fuel c st l. apply monitor_loop_terminates.
  - intros gw p fuel c st l. apply monitor_loop_runs.
  - apply start_grid_trading_ends.
  - intros gw p l Hv.
    pose proof Hv as Hv'. apply validate_twap_iff in Hv'.
    destruct Hv' as (_ & _ & _ & Hn & _).
    pose proof (run_chunks_log gw p l Hn) as Hl.
    pose proof (run_chunks_done gw p l) as Hd.
    unfold Twap.execute_twap_order. rewrite Hv. unfold bind.
    destruct (Twap.run_chunks gw p l) as [st l1]. simpl in Hl, Hd. simpl.
    exists (Twap.summarize p st). split; [reflexivity|]. split; [exact Hl|].
    split; [rewrite schedule_creates, repeat_length; lia|].
    unfold Twap.summarize, TwapSpec.chunks_done in *. simpl. lia.
Qed.

Lemma engines_survive_gateway_errors_witness :
  Twap.validate Samples.twap_5 = true /\
  exists s,
    fst (Twap.execute_twap_order (Samples.reject_all 0) Samples.twap_5 [])
    = Some s /\
    (Twap.executed_chunks s + Twap.failed_chunks s)%Z
    = Twap.num_orders Samples.twap_5.
Proof.
  assert (H : Twap.validate Samples.twap_5 = true) by reflexivity.
  split; [exact H|].
  destruct (proj2 (proj2 (proj2 (proj2 engines_survive_gateway_errors)))
                  (Samples.reject_all 0) Samples.twap_5 [] H)
    as (s & Hs & _ & _ & Hc).
  exists s. split; [exact Hs | exact Hc].
Defined.

(** C7 as stated fails: with valid parameters and no stop request at any
    time, a gateway that rejects the ten initial orders ends the run: the
    engine returns None after the placement. *)
Lemma engines_survive_gateway_errors_counterexample :
  validate Samples.grid_5 = true /\
  gw_stop Samples.reject_all_unstopped = (fun _ => false) /\
  start_grid_trading Samples.reject_all_unstopped Samples.grid_5 5 []
  = (ReturnedNone, map EvCreate (initial_requests Samples.grid_5)) /\
  List.length (initial_requests Samples.grid_5) = 10%nat.
Proof.
  split; [reflexivity|].
  split; [reflexivity|].
  split; [reflexivity|].
  reflexivity.
Qed.
End NoAbortClaim.


(** * Further properties of the engines *)

(** ** Invariants of a whole grid session *)

Section RunInvariant.
Import Grid GridSpec.
Variable gw : Gateway.
Variable p : Params.

(** A property of the local state and of the log. *)
Variable K : GridState -> Log -> Prop.

Hypothesis K_buy :
  forall i st l,
    (Z.of_nat i < num_grids p)%Z -> K st l ->
    K (fst (place_buy gw p i st l)) (snd (place_buy gw p i st l)).
Hypothesis K_sell :
  forall i st l,
    (Z.of_nat i < num_grids p)%Z -> K st l ->
    K (fst (place_sell gw p i st l)) (snd (place_sell gw p i st l)).
Hypothesis K_replace :
  forall order_id o st l,
    Dict.get (grid_orders st) order_id = Some o -> K st l ->
    K (fst (replace_filled gw p order_id o st l))
      (snd (replace_filled gw p order_id o st l)).
Hypothesis K_fetch : forall st l s, K st l -> K st (l ++ [EvOpenOrders s]).
Hypothesis K_sleep : forall st l z, K st l -> K st (l ++ [EvSleep z]).
Hypothesis K_cancel : forall st l s k, K st l -> K st (l ++ [EvCancel s k]).

Lemma for_each_run {A} (body : A -> GridState -> M GridState) (xs : list A) :
  (forall x st l, In x xs -> K st l ->
                  K (fst (body x st l)) (snd (body x st l))) ->
  forall st l, K st l ->
               K (fst (for_each xs body st l)) (snd (for_each xs body st l)).
Proof.
  induction xs as [|x r IH]; intros Hb st l H; simpl; [exact H|].
  unfold bind. pose proof (Hb x st l (or_introl eq_refl) H) as H1.
  destruct (body x st l) as [st1 l1]. simpl in H1.
  apply IH; [|exact H1]. intros y st' l' Hy. apply Hb. now right.
Qed.

Lemma place_initial_orders_run l :
  K initial_state l ->
  K (fst (place_initial_orders gw p l)) (snd (place_initial_orders gw p l)).
Proof.
  intro H. unfold place_initial_orders, bind.
  pose proof (for_each_run (place_buy gw p) (range (num_grids p))
                (fun i st l0 Hi => K_buy i st l0 (in_range _ _ Hi))
                initial_state l H) as Hb.
  destruct (for_each _ (place_buy gw p) _ _) as [st1 l1]. simpl in Hb.
  apply for_each_run; [|exact Hb].
  intros i st l0 Hi. apply K_sell, in_range, Hi.
Qed.

Lemma process_filled_run ids st l :
  K st l ->
  K (fst (process_filled gw p ids st l)) (snd (process_filled gw p ids st l)).
Proof.
  revert st l. induction ids as [|k r IH]; intros st l H; simpl; [exact H|].
  destruct (Dict.get (grid_orders st) k) as [o|] eqn:E; [|exact H].
  unfold bind. pose proof (K_replace k o st l E H) as H1.
  destruct (replace_filled gw p k o st l) as [st1 l1]. apply IH, H1.
Qed.

Lemma monitor_cycle_run st l :
  K st l ->
  K (fst (monitor_cycle gw p st l)) (snd (monitor_cycle gw p st l)).
Proof.
  intro H. unfold monitor_cycle, bind, get_open_orders.
  destruct (gw_open_orders gw _ _); simpl; try (apply K_fetch, H).
  apply process_filled_run, K_fetch, H.
Qed.

(** The state at which the loop stands when it returns or runs out of
    fuel. *)
Lemma monitor_loop_run fuel c st l :
  K st l ->
  exists st',
    K st' (snd (monitor_loop gw p fuel c st l)) /\
    forall c' st'',
      fst (monitor_loop gw p fuel c st l) = Some (c', st'') -> st'' = st'.
Proof.
  revert c st l. induction fuel as [|fuel IH]; intros c st l H; simpl.
  - exists st. split; [exact H | discriminate].
  - unfold bind, stop_requested.
    destruct (gw_stop gw (List.length l)); simpl.
    + exists st. split; [exact H|]. intros c' st'' E. now inversion E.
    + pose proof (monitor_cycle_run st l H) as H1.
      destruct (monitor_cycle gw p st l) as [st1 l1]. simpl in H1.
      destruct (gw_stop gw (List.length l1)); simpl; apply IH; auto.
Qed.

Lemma cancel_remaining_run st l :
  K st l -> K st (snd (cancel_remaining gw p st l)).
Proof.
  intro H. rewrite cancel_remaining_log.
  induction (Dict.keys (grid_orders st)) as [|k r IH] using rev_ind.
  - simpl. now rewrite app_nil_r.
  - rewrite map_app, app_assoc. simpl. apply K_cancel, IH.
Qed.

(** At the end of a call, however it ends, the property holds of the final
    log and of some state; and a summary is the summary of such a state. *)
Lemma run_grid_run fuel l :
  K initial_state l ->
  exists st,
    K st (snd (run_grid gw p fuel l)) /\
    forall s,
      fst (run_grid gw p fuel l) = Returned s ->
      exists cycle_count cancelled_count l2,
        s = summary cycle_count cancelled_count st /\
        cancelled_count = fst (cancel_remaining gw p st l2).
Proof.
  intro H. unfold run_grid, bind.
  pose proof (place_initial_orders_run l H) as H0.
  destruct (place_initial_orders gw p l) as [st0 l0]. simpl in H0.
  destruct (List.length (grid_orders st0) =? 0)%nat.
  - exists st0. split; [exact H0 | discriminate].
  - destruct (monitor_loop_run fuel 0%Z st0 l0 H0) as (st' & H1 & Hs).
    destruct (monitor_loop gw p fuel 0%Z st0 l0) as [[[c st'']|] l1];
      simpl in H1.
    + specialize (Hs c st'' eq_refl). subst st''.
      pose proof (cancel_remaining_run st' l1 H1) as H2.
      destruct (cancel_remaining gw p st' l1) as [n l2] eqn:Ec. simpl in H2.
      exists st'. split; [exact H2|].
      intros s E. inversion E. exists c, n, l1. rewrite Ec. split; reflexivity.
    + exists st'. split; [exact H1 | discriminate].
Qed.
End RunInvariant.

Section GridSessionFacts.
Import Grid GridSpec GridInv.

Lemma set_length_le {V} (d : Dict.t V) k v :
  (List.length (Dict.set d k v) <= S (List.length d))%nat.
Proof.
  induction d as [|[k' v'] r IH]; simpl; [lia|].
  destruct (Z.eqb k k'); simpl; lia.
Qed.

Lemma creates_app l1 l2 : creates (l1 ++ l2) = creates l1 ++ creates l2.
Proof. unfold creates. apply flat_map_app. Qed.

Lemma count_ok_le gw t reqs : (count_ok gw t reqs <= List.length reqs)%nat.
Proof.
  revert t. induction reqs as [|r rs IH]; intro t; simpl; [lia|].
  specialize (IH (S t)). destruct (is_ok _); lia.
Qed.

(** *** The accounts of a session *)

Lemma place_buy_accounted gw p i st l :
  accounted st -> accounted (fst (place_buy gw p i st l)).
Proof.
  unfold accounted, fills, placed, place_buy, bind, create_order.
  intros (H1 & H2 & H3 & H4 & H5).
  destruct (gw_create gw _ _) as [resp| |]; simpl; try tauto.
  pose proof (set_length_le (grid_orders st) (orderId resp)
                (mkOrder BUY (buy_price p i) (Z.of_nat i) (quantity_per_grid p))).
  repeat split; lia.
Qed.

Lemma place_sell_accounted gw p i st l :
  accounted st -> accounted (fst (place_sell gw p i st l)).
Proof.
  unfold accounted, fills, placed, place_sell, bind, create_order.
  intros (H1 & H2 & H3 & H4 & H5).
  destruct (gw_create gw _ _) as [resp| |]; simpl; try tauto.
  pose proof (set_length_le (grid_orders st) (orderId resp)
                (mkOrder SELL (sell_price p i) (num_grids p + Z.of_nat i)
                         (quantity_per_grid p))).
  repeat split; lia.
Qed.

Lemma replace_filled_accounted gw p order_id o st l :
  Dict.get (grid_orders st) order_id = Some o ->
  accounted st -> accounted (fst (replace_filled gw p order_id o st l)).
Proof.
  intros Hget (H1 & H2 & H3 & H4 & H5).
  pose proof (del_length _ _ _ Hget) as Hd.
  unfold accounted, fills, placed in *.
  destruct (replace_filled_cases gw p order_id o st l)
    as [[_ E]|[(_ & resp & _ & E)|(_ & _ & E)]]; rewrite E;
    cbn [fst grid_orders total_buy_orders_placed total_sell_orders_placed
         total_buy_fills total_sell_fills record_fill track_replacement].
  - destruct (side o); repeat split; lia.
  - pose proof (set_length_le (Dict.del (grid_orders st) order_id)
                  (orderId resp)
                  (mkOrder (mirror_side (side o)) (mirror_price p o)
                           (grid_level o) (quantity o))).
    destruct (side o); cbn [mirror_side] in *; repeat split; lia.
  - destruct (side o); repeat split; lia.
Qed.

Lemma cancel_one_count gw p k n l :
  (n <= fst (cancel_one gw p k n l) <= n + 1)%Z.
Proof.
  unfold cancel_one, bind, cancel_order.
  destruct (gw_cancel gw _ _ _); simpl; lia.
Qed.

Lemma cancel_remaining_count gw p st l :
  (0 <= fst (cancel_remaining gw p st l)
   <= Z.of_nat (List.length (grid_orders st)))%Z.
Proof.
  unfold cancel_remaining, Dict.keys. rewrite <- (length_map fst).
  assert (G : forall ks n l0,
             (n <= fst (for_each ks (cancel_one gw p) n l0)
              <= n + Z.of_nat (List.length ks))%Z).
  { induction ks as [|k r IH]; intros n l0; [simpl; lia|].
    cbn [for_each List.length]. unfold bind.
    pose proof (cancel_one_count gw p k n l0) as H1.
    destruct (cancel_one gw p k n l0) as [m l1]. simpl in H1.
    specialize (IH m l1). lia. }
  specialize (G (map fst (grid_orders st)) 0%Z l). lia.
Qed.

Lemma run_accounted gw p fuel l :
  exists st,
    accounted st /\
    forall s,
      fst (run_grid gw p fuel l) = Returned s ->
      exists cycle_count cancelled_count l2,
        s = summary cycle_count cancelled_count st /\
        cancelled_count = fst (cancel_remaining gw p st l2).
Proof.
  apply (run_grid_run gw p (fun st _ => accounted st)); auto.
  - intros. now apply place_buy_accounted.
  - intros. now apply place_sell_accounted.
  - intros. now apply replace_filled_accounted.
  - unfold accounted, fills, placed. simpl. lia.
Qed.

(** X1: in every summary that the grid engine returns the counts are not
    negative and the fills and the cancelled orders together are at most the
    orders placed: total_trades + orders_cancelled <= total_buy_orders +
    total_sell_orders. *)
Theorem grid_summary_accounting (gw : Gateway) (p : Params) (fuel : nat)
        (l : Log) (s : Summary) :
  fst (start_grid_trading gw p fuel l) = Returned s ->
  (0 <= total_buy_orders s)%Z /\ (0 <= total_sell_orders s)%Z /\
  (0 <= buy_fills s)%Z /\ (0 <= sell_fills s)%Z /\
  (0 <= orders_cancelled s)%Z /\
  (total_trades s + orders_cancelled s
   <= total_buy_orders s + total_sell_orders s)%Z.
Proof.
  unfold start_grid_trading. destruct (validate p); [|discriminate].
  intro H. destruct (run_accounted gw p fuel l) as (st & Ha & Hs).
  destruct (Hs s H) as (c & n & l2 & E & En). subst s.
  pose proof (cancel_remaining_count gw p st l2) as Hc. rewrite <- En in Hc.
  destruct Ha as (H1 & H2 & H3 & H4 & H5).
  unfold fills, placed in H5. simpl. repeat split; lia.
Qed.

Lemma grid_summary_accounting_witness :
  fst (start_grid_trading (Samples.fill_first 9) Samples.grid_thirds 5 [])
  = Returned (mkSummary true 1 3 4 1 0 6 1) /\
  (total_trades (mkSummary true 1 3 4 1 0 6 1)
   + orders_cancelled (mkSummary true 1 3 4 1 0 6 1)
   <= total_buy_orders (mkSummary true 1 3 4 1 0 6 1)
      + total_sell_orders (mkSummary true 1 3 4 1 0 6 1))%Z.
Proof.
  assert (H : fst (start_grid_trading (Samples.fill_first 9)
                                      Samples.grid_thirds 5 [])
              = Returned (mkSummary true 1 3 4 1 0 6 1)) by reflexivity.
  split; [exact H|].
  apply (grid_summary_accounting _ _ _ _ _ H).
Defined.

Lemma start_grid_trading_returned gw p fuel l s :
  fst (start_grid_trading gw p fuel l) = Returned s ->
  validate p = true /\
  exists c st' l1,
    fst (monitor_loop gw p fuel 0%Z (fst (place_initial_orders gw p l))
                      (snd (place_initial_orders gw p l)))
    = Some (c, st') /\
    s = summary c (fst (cancel_remaining gw p st' l1)) st'.
Proof.
  unfold start_grid_trading. destruct (validate p); [|discriminate].
  unfold run_grid, bind.
  destruct (place_initial_orders gw p l) as [st0 l0]. simpl.
  destruct (List.length (grid_orders st0) =? 0)%nat; [discriminate|].
  destruct (monitor_loop gw p fuel 0%Z st0 l0) as [[[c st']|] l1];
    [|discriminate].
  destruct (cancel_remaining gw p st' l1) as [n l2] eqn:Ec. simpl.
  intro E. inversion E. split; [reflexivity|].
  exists c, st', l1. rewrite Ec. split; reflexivity.
Qed.

(** *** The size of the tracker *)

Lemma replace_filled_size gw p order_id o st l :
  Dict.get (grid_orders st) order_id = Some o ->
  (List.length (grid_orders (fst (replace_filled gw p order_id o st l)))
   <= List.length (grid_orders st))%nat.
Proof.
  intro Hget. pose proof (del_length _ _ _ Hget) as Hd.
  destruct (replace_filled_cases gw p order_id o st l)
    as [[_ E]|[(_ & resp & _ & E)|(_ & _ & E)]]; rewrite E;
    cbn [fst grid_orders record_fill track_replacement]; try lia.
  pose proof (set_length_le (Dict.del (grid_orders st) order_id) (orderId resp)
                (mkOrder (mirror_side (side o)) (mirror_price p o)
                         (grid_level o) (quantity o))).
  lia.
Qed.

Lemma monitor_cycle_size gw p st l :
  (List.length (grid_orders (fst (monitor_cycle gw p st l)))
   <= List.length (grid_orders st))%nat.
Proof.
  apply (monitor_cycle_run gw p
           (fun st' _ => (List.length (grid_orders st')
                          <= List.length (grid_orders st))%nat)); auto.
  intros k o st' l' Hget H.
  pose proof (replace_filled_size gw p k o st' l' Hget). lia.
Qed.

Lemma monitor_loop_size gw p fuel c st l c' st' :
  fst (monitor_loop gw p fuel c st l) = Some (c', st') ->
  (List.length (grid_orders st') <= List.length (grid_orders st))%nat.
Proof.
  intro E.
  destruct (monitor_loop_run gw p
              (fun st1 _ => (List.length (grid_orders st1)
                             <= List.length (grid_orders st))%nat))
    with (fuel := fuel) (c := c) (st := st) (l := l) as (st1 & H1 & Hs); auto.
  - intros k o st2 l2 Hget H.
    pose proof (replace_filled_size gw p k o st2 l2 Hget). lia.
  - rewrite (Hs _ _ E). exact H1.
Qed.

Lemma place_initial_orders_size gw p l :
  (List.length (grid_orders (fst (place_initial_orders gw p l)))
   <= 2 * Z.to_nat (num_grids p))%nat.
Proof.
  assert (Ha : accounted (fst (place_initial_orders gw p l))).
  { apply (place_initial_orders_run gw p (fun st _ => accounted st)).
    - intros. now apply place_buy_accounted.
    - intros. now apply place_sell_accounted.
    - unfold accounted, fills, placed. simpl. lia. }
  destruct Ha as (_ & _ & H3 & H4 & H5).
  rewrite place_initial_orders_placed in H5.
  pose proof (count_ok_le gw (List.length l) (initial_requests p)) as Hc.
  rewrite initial_requests_length in Hc. unfold fills in H5. lia.
Qed.

(** X2: the tracker never holds more than 2*numGrids orders: the initial
    placement tracks at most that many, a monitoring cycle and the whole
    loop never make the tracker larger, and a summary reports at most
    2*numGrids cancelled orders. *)
Theorem grid_tracker_size (gw : Gateway) (p : Params) :
  (forall l,
      (List.length (grid_orders (fst (place_initial_orders gw p l)))
       <= 2 * Z.to_nat (num_grids p))%nat) /\
  (forall st l,
      (List.length (grid_orders (fst (monitor_cycle gw p st l)))
       <= List.length (grid_orders st))%nat) /\
  (forall fuel c st l c' st',
      fst (monitor_loop gw p fuel c st l) = Some (c', st') ->
      (List.length (grid_orders st') <= List.length (grid_orders st))%nat) /\
  (forall fuel l s,
      fst (start_grid_trading gw p fuel l) = Returned s ->
      (orders_cancelled s <= 2 * num_grids p)%Z).
Proof.
  split; [apply place_initial_orders_size|].
  split; [apply monitor_cycle_size|].
  split; [apply monitor_loop_size|].
  intros fuel l s H.
  destruct (start_grid_trading_returned gw p fuel l s H)
    as (Hv & c & st' & l1 & Hl & Es).
  apply validate_iff in Hv. destruct Hv as (_ & _ & _ & _ & _ & Hn & _).
  pose proof (monitor_loop_size _ _ _ _ _ _ _ _ Hl) as H1.
  pose proof (place_initial_orders_size gw p l) as H0.
  pose proof (cancel_remaining_count gw p st' l1) as Hc.
  subst s. cbn [orders_cancelled summary]. lia.
Qed.

Lemma grid_tracker_size_witness :
  fst (start_grid_trading (Samples.fill_first 9) Samples.grid_thirds 5 [])
  = Returned (mkSummary true 1 3 4 1 0 6 1) /\
  (orders_cancelled (mkSummary true 1 3 4 1 0 6 1)
   <= 2 * num_grids Samples.grid_thirds)%Z.
Proof.
  assert (H : fst (start_grid_trading (Samples.fill_first 9)
                                      Samples.grid_thirds 5 [])
              = Returned (mkSummary true 1 3 4 1 0 6 1)) by reflexivity.
  split; [exact H|].
  exact (proj2 (proj2 (proj2 (grid_tracker_size (Samples.fill_first 9)
                                                Samples.grid_thirds)))
               5%nat [] _ H).
Defined.

(** *** What the tracker holds and what is submitted *)

Lemma place_buy_good gw p i st l :
  (Z.of_nat i < num_grids p)%Z ->
  Forall (good_entry p) (Dict.values (grid_orders st)) ->
  Forall (good_entry p) (Dict.values (grid_orders (fst (place_buy gw p i st l)))).
Proof.
  intros Hi Hs. unfold place_buy, bind, create_order.
  destruct (gw_create gw _ _); simpl; try assumption.
  apply values_set; [assumption|].
  unfold good_entry, level_in_range, sized. cbn [grid_level quantity].
  split; [lia | reflexivity].
Qed.

Lemma place_sell_good gw p i st l :
  (Z.of_nat i < num_grids p)%Z ->
  Forall (good_entry p) (Dict.values (grid_orders st)) ->
  Forall (good_entry p) (Dict.values (grid_orders (fst (place_sell gw p i st l)))).
Proof.
  intros Hi Hs. unfold place_sell, bind, create_order.
  destruct (gw_create gw _ _); simpl; try assumption.
  apply values_set; [assumption|].
  unfold good_entry, level_in_range, sized. cbn [grid_level quantity].
  split; [lia | reflexivity].
Qed.

Lemma replace_filled_good gw p order_id o st l :
  Dict.get (grid_orders st) order_id = Some o ->
  Forall (good_entry p) (Dict.values (grid_orders st)) ->
  Forall (good_entry p)
         (Dict.values (grid_orders (fst (replace_filled gw p order_id o st l)))).
Proof.
  intros Hget Hs.
  assert (Ho : good_entry p o).
  { rewrite Forall_forall in Hs. apply Hs. eapply get_in_values, Hget. }
  destruct (replace_filled_cases gw p order_id o st l)
    as [[_ E]|[(_ & resp & _ & E)|(_ & _ & E)]]; rewrite E;
    cbn [fst grid_orders record_fill track_replacement];
    try (now apply values_del).
  apply values_set; [now apply values_del|]. exact Ho.
Qed.

Lemma creates_other l e :
  match e with EvCreate _ => False | _ => True end ->
  creates (l ++ [e]) = creates l.
Proof.
  intro H. rewrite creates_app. destruct e; try contradiction;
    simpl; apply app_nil_r.
Qed.

Lemma replace_filled_requests gw p order_id o st l :
  Dict.get (grid_orders st) order_id = Some o ->
  Forall (good_entry p) (Dict.values (grid_orders st)) ->
  Forall (grid_limit_request p) (creates l) ->
  Forall (grid_limit_request p)
         (creates (snd (replace_filled gw p order_id o st l))).
Proof.
  intros Hget Hs Hl.
  assert (Ho : good_entry p o).
  { rewrite Forall_forall in Hs. apply Hs. eapply get_in_values, Hget. }
  destruct Ho as [Hlev Hq].
  assert (Hr : grid_limit_request p (mirror_request p o)).
  { unfold grid_limit_request, mirror_request, limit_order. simpl.
    repeat split; auto; [destruct (side o); auto | discriminate]. }
  destruct (replace_filled_cases gw p order_id o st l)
    as [[_ E]|[(_ & resp & _ & E)|(_ & _ & E)]]; rewrite E; cbn [snd];
    try exact Hl;
    rewrite creates_app; apply Forall_app; (split; [exact Hl|]);
    simpl; (constructor; [exact Hr | constructor]).
Qed.

Lemma initial_request_shape p i :
  grid_limit_request p (buy_request p i) /\
  grid_limit_request p (sell_request p i).
Proof.
  unfold grid_limit_request, buy_request, sell_request, limit_order. simpl.
  repeat split; auto; discriminate.
Qed.

(** X3: every order that the grid engine submits in a call, from the first
    placement to the last replacement, is a limit order for the upper-cased
    symbol, on the BUY or the SELL side, with quantity quantity_per_grid
    and with a price; no market order is ever sent. *)
Theorem grid_requests_shape (gw : Gateway) (p : Params) (fuel : nat) :
  Forall (grid_limit_request p)
         (creates (snd (start_grid_trading gw p fuel []))).
Proof.
  unfold start_grid_trading. destruct (validate p); [|constructor].
  destruct (run_grid_run gw p
              (fun st l =>
                 Forall (good_entry p) (Dict.values (grid_orders st)) /\
                 Forall (grid_limit_request p) (creates l)))
    with (fuel := fuel) (l := @nil Event) as (st & [_ H] & _).
  - intros i st l Hi [H1 H2]. split; [now apply place_buy_good|].
    rewrite place_buy_log, creates_app. apply Forall_app. split; [exact H2|].
    simpl. constructor; [apply initial_request_shape | constructor].
  - intros i st l Hi [H1 H2]. split; [now apply place_sell_good|].
    rewrite place_sell_log, creates_app. apply Forall_app. split; [exact H2|].
    simpl. constructor; [apply initial_request_shape | constructor].
  - intros k o st l Hget [H1 H2].
    split; [now apply replace_filled_good | now apply replace_filled_requests].
  - intros st l s [H1 H2]. split; [exact H1|]. now rewrite creates_other.
  - intros st l z [H1 H2]. split; [exact H1|]. now rewrite creates_other.
  - intros st l s k [H1 H2]. split; [exact H1|]. now rewrite creates_other.
  - split; constructor.
  - exact H.
Qed.

(** X4: every order in the tracker carries the quantity quantity_per_grid
    and a grid level between 0 and 2*numGrids - 1: the initial placement
    tracks only such orders, and a monitoring cycle and the whole loop keep
    the tracker so. *)
Theorem grid_tracked_entries (gw : Gateway) (p : Params) :
  (forall l,
      Forall (fun o => (0 <= grid_level o < 2 * num_grids p)%Z /\
                       quantity o = quantity_per_grid p)
             (Dict.values (grid_orders (fst (place_initial_orders gw p l))))) /\
  (forall st l,
      Forall (good_entry p) (Dict.values (grid_orders st)) ->
      Forall (good_entry p)
             (Dict.values (grid_orders (fst (monitor_cycle gw p st l))))) /\
  (forall fuel c st l c' st',
      Forall (good_entry p) (Dict.values (grid_orders st)) ->
      fst (monitor_loop gw p fuel c st l) = Some (c', st') ->
      Forall (good_entry p) (Dict.values (grid_orders st'))).
Proof.
  split; [|split].
  - intro l.
    apply (place_initial_orders_run gw p
             (fun st _ => Forall (good_entry p) (Dict.values (grid_orders st)))).
    + intros. now apply place_buy_good.
    + intros. now apply place_sell_good.
    + constructor.
  - intros st l H.
    apply (monitor_cycle_run gw p
             (fun st _ => Forall (good_entry p) (Dict.values (grid_orders st))));
      auto.
    intros. now apply replace_filled_good.
  - intros fuel c st l c' st' H E.
    destruct (monitor_loop_run gw p
                (fun st _ => Forall (good_entry p) (Dict.values (grid_orders st))))
      with (fuel := fuel) (c := c) (st := st) (l := l) as (st1 & H1 & Hs); auto.
    + intros. now apply replace_filled_good.
    + rewrite (Hs _ _ E). exact H1.
Qed.

Lemma grid_tracked_entries_witness :
  let gw := Samples.accept_all 11 in
  let st := fst (place_initial_orders gw Samples.grid_5 []) in
  Forall (good_entry Samples.grid_5) (Dict.values (grid_orders st)) /\
  Forall (good_entry Samples.grid_5)
         (Dict.values (grid_orders (fst (monitor_cycle gw Samples.grid_5 st [])))).
Proof.
  intros gw st.
  destruct (grid_tracked_entries gw Samples.grid_5) as (H0 & Hc & _).
  assert (H : Forall (good_entry Samples.grid_5) (Dict.values (grid_orders st)))
    by exact (H0 []).
  split; [exact H | exact (Hc st [] H)].
Defined.

(** *** Prices *)

Lemma round_half_even_near (y : Q) :
  y - (1 # 2) <= inject_Z (round_half_even y) /\
  inject_Z (round_half_even y) <= y + (1 # 2).
Proof.
  unfold round_half_even.
  pose proof (Qfloor_le y) as Hl. pose proof (Qlt_floor y) as Hu.
  rewrite inject_Z_plus in Hu.
  destruct (Qcompare_spec (y - inject_Z (Qfloor y)) (1 # 2)) as [E|L|G];
    [destruct (Z.even (Qfloor y))| |];
    try rewrite inject_Z_plus;
    revert Hl Hu; try revert E; try revert L; try revert G;
    generalize (inject_Z (Qfloor y)); intros f; intros;
    change (inject_Z 1) with 1 in *; split; lra.
Qed.

Lemma round2_near (x : Q) :
  x - (1 # 200) <= round2 x /\ round2 x <= x + (1 # 200).
Proof.
  unfold round2. destruct (round_half_even_near (x * 100)) as [Hl Hu].
  revert Hl Hu. generalize (inject_Z (round_half_even (x * 100))).
  intros r Hl Hu.
  assert (E : r / 100 == r * (1 # 100)) by (field).
  rewrite E. split; lra.
Qed.

Lemma round2_comp (x y : Q) : x == y -> round2 x = round2 y.
Proof.
  intro E. unfold round2.
  assert (H : x * 100 == y * 100) by (rewrite E; reflexivity).
  now rewrite (round_half_even_comp _ _ H).
Qed.

Lemma initial_entry_near (p : Params) (o : TrackedOrder) :
  lower_bound p < upper_bound p -> (0 < num_grids p)%Z ->
  initial_entry p o -> near_bounds p o.
Proof.
  intros Hb Hn (i & Hi & [E|E]); subst o; unfold near_bounds; simpl;
    destruct (level_offset_bounds p i Hb Hn Hi) as [H0 H1];
    unfold buy_price, sell_price.
  - destruct (round2_near (lower_bound p
                           + inject_Z (Z.of_nat i) * grid_step p)) as [A B].
    split; lra.
  - destruct (round2_near (upper_bound p
                           - inject_Z (Z.of_nat i) * grid_step p)) as [A B].
    split; lra.
Qed.

Lemma replace_filled_near gw p order_id o st l :
  Forall (near_bounds p) (Dict.values (grid_orders st)) ->
  Forall (near_bounds p)
         (Dict.values (grid_orders (fst (replace_filled gw p order_id o st l)))).
Proof.
  intro Hs.
  destruct (replace_filled_cases gw p order_id o st l)
    as [[_ E]|[(B & resp & _ & E)|(_ & _ & E)]]; rewrite E;
    cbn [fst grid_orders record_fill track_replacement];
    try (now apply values_del).
  apply values_set; [now apply values_del|].
  apply (out_of_bounds_false p) in B. destruct B as [B1 B2].
  unfold near_bounds. cbn [price]. split; lra.
Qed.





(** *** Quiet cycles *)

Lemma filled_order_ids_none ids st :
  (forall k, In k (Dict.keys (grid_orders st)) -> In k ids) ->
  filled_order_ids ids st = [].
Proof.
  intro H. destruct (filled_order_ids ids st) as [|k r] eqn:E; [reflexivity|].
  assert (Hk : In k (filled_order_ids ids st)) by (rewrite E; now left).
  apply filled_order_ids_in in Hk. destruct Hk as [Hk Hn].
  exfalso. apply Hn, H, Hk.
Qed.

(** X7: a monitoring cycle changes neither the tracker nor the counters
    and submits no order when the fetch of the open orders fails, or when
    every tracked order is still reported open: the only event of the
    cycle is the fetch. *)
Theorem grid_quiet_cycle (gw : Gateway) (p : Params) (st : GridState) (l : Log) :
  is_ok (gw_open_orders gw (List.length l) (Str.upper (symbol p))) = false \/
  (exists ids,
      gw_open_orders gw (List.length l) (Str.upper (symbol p)) = Ok ids /\
      forall k, In k (Dict.keys (grid_orders st)) -> In k ids) ->
  monitor_cycle gw p st l = (st, l ++ [EvOpenOrders (Str.upper (symbol p))]).
Proof.
  unfold monitor_cycle, bind, get_open_orders.
  intros [H|(ids & E & H)].
  - destruct (gw_open_orders gw _ _); [discriminate | reflexivity | reflexivity].
  - rewrite E, (filled_order_ids_none ids st H). reflexivity.
Qed.

Lemma grid_quiet_cycle_witness :
  let gw := Samples.flaky 12 in
  let st := fst (place_initial_orders gw Samples.grid_5 []) in
  let l := snd (place_initial_orders gw Samples.grid_5 []) in
  is_ok (gw_open_orders gw (List.length l) (Str.upper (symbol Samples.grid_5)))
  = false /\
  monitor_cycle gw Samples.grid_5 st l
  = (st, l ++ [EvOpenOrders (Str.upper (symbol Samples.grid_5))]).
Proof.
  intros gw st l.
  assert (H : is_ok (gw_open_orders gw (List.length l)
                                    (Str.upper (symbol Samples.grid_5)))
              = false) by reflexivity.
  split; [exact H|].
  exact (grid_quiet_cycle gw Samples.grid_5 st l (or_introl H)).
Defined.
End GridSessionFacts.

(** ** Validators and their callers *)

Section ValidatorFacts.

Lemma char_upper_fixed (c : ascii) : Str.is_lower c = false -> Str.char_upper c = c.
Proof. unfold Str.char_upper. now intros ->. Qed.

Lemma upper_fixed (s : string) : Str.has_lower s = false -> Str.upper s = s.
Proof.
  induction s as [|c r IH]; simpl; [reflexivity|].
  intro H. apply orb_false_iff in H. destruct H as [Hc Hr].
  now rewrite (char_upper_fixed c Hc), IH.
Qed.

Lemma char_upper_not_lower (c : ascii) : Str.is_lower (Str.char_upper c) = false.
Proof. destruct c as [[] [] [] [] [] [] [] []]; reflexivity. Qed.

Lemma upper_has_no_lower (s : string) : Str.has_lower (Str.upper s) = false.
Proof.
  induction s as [|c r IH]; simpl; [reflexivity|].
  now rewrite char_upper_not_lower, IH.
Qed.

Lemma upper_idempotent (s : string) : Str.upper (Str.upper s) = Str.upper s.
Proof. apply upper_fixed, upper_has_no_lower. Qed.

Lemma validate_symbol_upper (s : string) :
  validate_symbol s = true -> Str.upper s = s /\ (6 <= String.length s)%nat.
Proof.
  unfold validate_symbol.
  destruct (Nat.ltb_spec (String.length s) 6); [discriminate|].
  destruct (Str.isupper s) eqn:Eu; simpl; [|discriminate].
  intros _. split; [|assumption].
  unfold Str.isupper in Eu. apply andb_true_iff in Eu. destruct Eu as [Hl _].
  apply negb_true_iff in Hl. now apply upper_fixed.
Qed.

Lemma validate_side_upper (s : string) :
  validate_side s = true ->
  Str.upper s = "BUY"%string \/ Str.upper s = "SELL"%string.
Proof.
  unfold validate_side. simpl.
  rewrite !orb_true_iff, !String.eqb_eq. intuition discriminate.
Qed.

(** X8: a symbol that validate_symbol accepts has at least 6 characters
    and is its own upper case, so that the symbol.upper() which every
    order function sends is the validated symbol itself. *)
Theorem validated_symbol_sent_unchanged (s : string) :
  validate_symbol s = true ->
  Str.upper s = s /\ (6 <= String.length s)%nat.
Proof.
  intro H. unfold validate_symbol in H.
  destruct (Nat.ltb_spec (String.length s) 6) as [|Hlen]; [discriminate|].
  split; [|exact Hlen].
  destruct (Str.isupper s) eqn:Eu; simpl in H; [|discriminate].
  unfold Str.isupper in Eu. apply andb_true_iff in Eu.
  destruct Eu as [Hl _]. apply negb_true_iff in Hl.
  apply upper_fixed, Hl.
Qed.

Lemma validated_symbol_sent_unchanged_witness :
  validate_symbol "BTCUSDT" = true /\ Str.upper "BTCUSDT" = "BTCUSDT"%string.
Proof.
  assert (H : validate_symbol "BTCUSDT" = true) by reflexivity.
  split; [exact H|].
  exact (proj1 (validated_symbol_sent_unchanged "BTCUSDT" H)).
Defined.

(** X9: validate_side does not look at the case of its argument, and the
    side.upper() that is sent for an accepted side is 'BUY' or 'SELL'. *)
Theorem validate_side_case_insensitive (s : string) :
  validate_side (Str.upper s) = validate_side s /\
  (validate_side s = true ->
   Str.upper s = "BUY"%string \/ Str.upper s = "SELL"%string).
Proof.
  split; [|apply validate_side_upper].
  unfold validate_side. now rewrite upper_idempotent.
Qed.

Lemma validate_side_case_insensitive_witness :
  validate_side "sell" = true /\ Str.upper "sell" = "SELL"%string.
Proof.
  assert (H : validate_side "sell" = true) by reflexivity.
  split; [exact H|].
  destruct (proj2 (validate_side_case_insensitive "sell") H) as [E|E];
    [discriminate E | exact E].
Defined.
End ValidatorFacts.

(** ** More on the TWAP engine *)

Section TwapMore.
Import Twap TwapSpec.

(** X10: when the symbol or the side is malformed, or total_quantity,
    num_orders or interval_seconds is not positive, execute_twap_order
    returns None and its log is the log it was started with: nothing is
    sent. *)
Theorem twap_invalid_parameters (gw : Gateway) (p : Params) (l : Log) :
  validate_symbol (symbol p) = false \/ validate_side (side p) = false \/
  ~ 0 < total_quantity p \/ (num_orders p <= 0)%Z \/
  (interval_seconds p <= 0)%Z ->
  execute_twap_order gw p l = (None, l).
Proof.
  intro H. unfold execute_twap_order.
  destruct (validate p) eqn:Hv; [|reflexivity].
  exfalso. apply validate_twap_iff in Hv.
  destruct Hv as (Hs & Hd & Hq & Hn & Hi).
  destruct H as [H|[H|[H|[H|H]]]]; try congruence; try contradiction; lia.
Qed.

Lemma twap_invalid_parameters_witness :
  (num_orders (mkParams "BTCUSDT" "BUY" 1 0 5) <= 0)%Z /\
  execute_twap_order (Samples.accept_all 0) (mkParams "BTCUSDT" "BUY" 1 0 5) []
  = (None, []).
Proof.
  assert (H : (num_orders (mkParams "BTCUSDT" "BUY" 1 0 5) <= 0)%Z)
    by (simpl; lia).
  split; [exact H|].
  apply (twap_invalid_parameters (Samples.accept_all 0)
           (mkParams "BTCUSDT" "BUY" 1 0 5) []).
  right. right. right. left. exact H.
Defined.

(** X11: for validated parameters every chunk order is a market order
    without a price, for the symbol as it was given, on side 'BUY' or
    'SELL', of quantity total_quantity/num_orders. *)
Theorem twap_request_shape (p : Params) :
  validate p = true ->
  exists s,
    (s = "BUY"%string \/ s = "SELL"%string) /\ s = Str.upper (side p) /\
    chunk_order p
    = mkReq (symbol p) s MARKET
            (total_quantity p / inject_Z (num_orders p)) None.
Proof.
  intro Hv. apply validate_twap_iff in Hv. destruct Hv as (Hs & Hd & _).
  exists (Str.upper (side p)).
  split; [exact (validate_side_upper (side p) Hd)|].
  split; [reflexivity|].
  unfold chunk_order, chunk_quantity.
  now rewrite (proj1 (validate_symbol_upper _ Hs)).
Qed.

Lemma twap_request_shape_witness :
  validate (mkParams "ETHUSDT" "sell" 3 4 10) = true /\
  chunk_order (mkParams "ETHUSDT" "sell" 3 4 10)
  = mkReq "ETHUSDT" "SELL" MARKET (3 / 4) None.
Proof.
  assert (H : validate (mkParams "ETHUSDT" "sell" 3 4 10) = true)
    by reflexivity.
  split; [exact H|].
  destruct (twap_request_shape _ H) as (s & _ & Es & E).
  rewrite E, Es. reflexivity.
Defined.
End TwapMore.

Section TwapReport.
Import Twap TwapSpec TwapInv.

Lemma record_outcome_numbers n r st :
  Permutation (chunk_numbers (record_outcome n r st)) (chunk_numbers st ++ [n]).
Proof.
  unfold chunk_numbers. destruct r as [resp| |]; simpl.
  - rewrite map_app, <- !app_assoc. apply Permutation_app_head.
    simpl. apply Permutation_cons_append.
  - rewrite map_app, app_assoc. reflexivity.
  - rewrite map_app, app_assoc. reflexivity.
Qed.

Lemma run_chunks_from_numbers gw p k a st l :
  Permutation (chunk_numbers (fst (for_each (seq a k) (run_chunk gw p) st l)))
              (chunk_numbers st ++ map (fun i => (Z.of_nat i + 1)%Z) (seq a k)).
Proof.
  revert a st l. induction k as [|k IH]; intros a st l.
  - simpl. now rewrite app_nil_r.
  - cbn [seq for_each map]. unfold bind.
    pose proof (run_chunk_state gw p a st l) as E.
    destruct (run_chunk gw p a st l) as [st1 l1]. simpl in E. subst st1.
    eapply Permutation_trans; [apply IH|].
    change ((Z.of_nat a + 1)%Z :: map (fun i => (Z.of_nat i + 1)%Z) (seq (S a) k))
      with ([(Z.of_nat a + 1)%Z] ++ map (fun i => (Z.of_nat i + 1)%Z) (seq (S a) k)).
    rewrite app_assoc. apply Permutation_app_tail, record_outcome_numbers.
Qed.

Lemma sorted_snoc (l : list Z) (n : Z) :
  StronglySorted Z.lt l -> Forall (fun x => (x < n)%Z) l ->
  StronglySorted Z.lt (l ++ [n]).
Proof.
  induction 1 as [|x r Hr IH Hx]; intro Hn; simpl.
  - constructor; constructor.
  - inversion Hn; subst. constructor; [auto|].
    apply Forall_app. split; [exact Hx | constructor; [assumption|constructor]].
Qed.

Lemma record_outcome_numbered a r st :
  numbered a st -> numbered (S a) (record_outcome (Z.of_nat a + 1) r st).
Proof.
  intros (He & Hf & Hb).
  assert (Hb' := Hb). unfold chunk_numbers in Hb'.
  apply Forall_app in Hb'. destruct Hb' as [Hbe Hbf].
  assert (Lt : forall l, Forall (fun n => (n <= Z.of_nat a)%Z) l ->
                         Forall (fun x => (x < Z.of_nat a + 1)%Z) l).
  { intros l0 H0. eapply Forall_impl; [|exact H0]. simpl. intros; lia. }
  assert (Le : forall l, Forall (fun n => (n <= Z.of_nat a)%Z) l ->
                         Forall (fun n => (n <= Z.of_nat (S a))%Z) l).
  { intros l0 H0. eapply Forall_impl; [|exact H0]. simpl. intros; lia. }
  assert (Hn : (Z.of_nat a + 1 <= Z.of_nat (S a))%Z) by lia.
  unfold numbered, chunk_numbers.
  destruct r as [resp| |]; cbn [record_outcome st_executed_orders st_failed_orders];
    rewrite ?map_app; cbn [map chunk_number failed_chunk_number].
  - split; [apply sorted_snoc; auto|]. split; [exact Hf|].
    repeat (apply Forall_app; split); auto.
  - split; [exact He|]. split; [apply sorted_snoc; auto|].
    repeat (apply Forall_app; split); auto.
  - split; [exact He|]. split; [apply sorted_snoc; auto|].
    repeat (apply Forall_app; split); auto.
Qed.

Lemma run_chunks_from_numbered gw p k a st l :
  numbered a st ->
  numbered (a + k) (fst (for_each (seq a k) (run_chunk gw p) st l)).
Proof.
  revert a st l. induction k as [|k IH]; intros a st l H.
  - simpl. now rewrite Nat.add_0_r.
  - cbn [seq for_each]. unfold bind.
    pose proof (run_chunk_state gw p a st l) as E.
    destruct (run_chunk gw p a st l) as [st1 l1]. simpl in E. subst st1.
    replace (a + S k)%nat with (S a + k)%nat by lia.
    apply IH, record_outcome_numbered, H.
Qed.

(** X12: in a returned TWAP summary every chunk number from 1 to
    num_orders is reported exactly once, either in executed_orders or in
    failed_orders, and each of the two lists is in increasing order of
    chunk number. *)
Theorem twap_chunk_numbers (gw : Gateway) (p : Params) (l : Log) (s : Summary) :
  fst (execute_twap_order gw p l) = Some s ->
  Permutation (map chunk_number (executed_orders s) ++
               map failed_chunk_number (failed_orders s))
              (map (fun i => (Z.of_nat i + 1)%Z) (range (num_orders p))) /\
  StronglySorted Z.lt (map chunk_number (executed_orders s)) /\
  StronglySorted Z.lt (map failed_chunk_number (failed_orders s)).
Proof.
  intro H. apply execute_twap_order_summary in H. destruct H as [_ Hs].
  subst s. unfold summarize. cbn [executed_orders failed_orders].
  unfold run_chunks, range. split.
  - apply (run_chunks_from_numbers gw p (Z.to_nat (num_orders p)) 0
             initial_state l).
  - pose proof (run_chunks_from_numbered gw p (Z.to_nat (num_orders p)) 0
                  initial_state l) as Hn.
    destruct Hn as (He & Hf & _); [|split; assumption].
    unfold numbered, chunk_numbers. simpl.
    split; [constructor|]. split; constructor.
Qed.

Lemma twap_chunk_numbers_witness :
  exists s,
    fst (execute_twap_order (Samples.reject_all 0) Samples.twap_5 []) = Some s /\
    StronglySorted Z.lt (map failed_chunk_number (failed_orders s)).
Proof.
  eexists. split; [reflexivity|].
  apply (twap_chunk_numbers (Samples.reject_all 0) Samples.twap_5 []).
  reflexivity.
Defined.

(** *** The average price *)

Lemma fold_plus_shift (l : list Q) (a : Q) :
  fold_left Qplus l a == a + qsum l.
Proof.
  unfold qsum. revert a. induction l as [|x r IH]; intro a; simpl; [ring|].
  rewrite (IH (a + x)), (IH (0 + x)). ring.
Qed.

Lemma qsum_cons (x : Q) (l : list Q) : qsum (x :: l) == x + qsum l.
Proof. unfold qsum at 1. simpl. rewrite fold_plus_shift. ring. Qed.

Lemma weighted_sum_bounds (lo hi : Q) (l : list Executed) :
  Forall (fun e => 0 < executed_qty e /\ lo <= avg_price e /\ avg_price e <= hi) l ->
  0 <= qsum (map executed_qty l) /\
  lo * qsum (map executed_qty l) <= total_value l /\
  total_value l <= hi * qsum (map executed_qty l).
Proof.
  unfold total_value.
  induction 1 as [|e r (Hq & Hl & Hh) Hr (I0 & I1 & I2)]; simpl map.
  - unfold qsum. simpl. split; [apply Qle_refl|]. split; apply Qle_lteq; right; ring.
  - rewrite !qsum_cons.
    assert (A : lo * executed_qty e <= executed_qty e * avg_price e).
    { rewrite (Qmult_comm lo). apply Qmult_le_l; assumption. }
    assert (B : executed_qty e * avg_price e <= hi * executed_qty e).
    { rewrite (Qmult_comm hi). apply Qmult_le_l; assumption. }
    revert Hq I0 I1 I2 A B.
    generalize (qsum (map executed_qty r))
               (qsum (map (fun o => executed_qty o * avg_price o) r))
               (executed_qty e * avg_price e) (executed_qty e).
    intros S V v q Hq I0 I1 I2 A B.
    split; [lra|]. split.
    + setoid_replace (lo * (q + S)) with (lo * q + lo * S) by ring. lra.
    + setoid_replace (hi * (q + S)) with (hi * q + hi * S) by ring. lra.
Qed.

Lemma twap_summary_total gw p l s :
  fst (execute_twap_order gw p l) = Some s ->
  executed_quantity s == qsum (map executed_qty (executed_orders s)) /\
  (0 < executed_quantity s ->
   avg_execution_price s
   == total_value (executed_orders s) / executed_quantity s).
Proof.
  intro H. apply execute_twap_order_summary in H. destruct H as [_ Hs].
  pose proof (run_chunks_consistent gw p l) as [Hq _].
  subst s. unfold summarize.
  cbn [executed_quantity executed_orders avg_execution_price].
  split; [exact Hq|].
  intro Hpos. destruct (st_executed_orders (fst (run_chunks gw p l))) as [|e r].
  - exfalso. simpl in Hq. rewrite Hq in Hpos. exact (Qlt_irrefl _ Hpos).
  - apply Qltb_lt in Hpos. rewrite Hpos. reflexivity.
Qed.


End TwapReport.

(** ** The single-order layer *)

Section OrderFacts.
Import Orders.

Local Open Scope string_scope.
Local Open Scope list_scope.

Lemma requests_app t1 t2 : requests (t1 ++ t2) = requests t1 ++ requests t2.
Proof. unfold requests. apply flat_map_app. Qed.

Lemma sound_sent (symbol side type : string) (q pr sp : option Q)
      (tif wt : option string) (cp : bool) (rw : option Z) :
  validate_symbol symbol = true -> validate_side side = true ->
  positive q -> positive pr -> positive sp ->
  sound_request (mkOrderParams (Str.upper symbol) (Str.upper side) type
                               q pr sp tif wt cp rw) /\
  Str.upper symbol = symbol.
Proof.
  intros Hs Hd Hq Hp Hsp.
  destruct (validate_symbol_upper symbol Hs) as [Eu _].
  split; [|exact Eu]. unfold sound_request. simpl. rewrite Eu.
  split; [exact Hs|].
  split; [exact (validate_side_upper side Hd)|].
  repeat split; assumption.
Qed.

(** X14: place_market_order either sends nothing and returns None, or
    sends exactly one request: a MARKET order for the symbol as given, on
    side 'BUY' or 'SELL', with the given, positive quantity and no price;
    it then returns the response of the exchange, or None when the
    exchange raises. *)
Theorem place_market_order_sound (ex : Exchange) (symbol side : string) (quantity : Q)
        (t : Trace) :
  let out := place_market_order ex symbol side quantity t in
  out = (None, t) \/
  exists r,
    snd out = t ++ [CCreate r] /\
    sound_request r /\ op_symbol r = symbol /\ op_type r = "MARKET" /\
    op_quantity r = Some quantity /\ op_price r = None /\
    fst out = response_or_none (ex_create ex (List.length t) r).
Proof.
  unfold place_market_order.
  destruct (validate_symbol symbol) eqn:Hs; simpl; [|now left].
  destruct (validate_side side) eqn:Hd; simpl; [|now left].
  destruct (validate_quantity quantity) eqn:Hq; simpl; [|now left].
  right. exists (market_params symbol side quantity).
  apply validate_quantity_iff in Hq.
  destruct (sound_sent symbol side "MARKET" (Some quantity) None None None None
                       false (Some recv_window) Hs Hd Hq I I) as [Hsound Eu].
  repeat split; try reflexivity; try apply Hsound. exact Eu.
Qed.

(** X15: place_limit_order either sends nothing and returns None, or sends
    exactly one request: a good-till-cancelled LIMIT order for the symbol
    as given, on side 'BUY' or 'SELL', with the given, positive quantity
    and price; it then returns the response of the exchange, or None when
    the exchange raises. *)
Theorem place_limit_order_sound (ex : Exchange) (symbol side : string) (quantity price : Q)
        (t : Trace) :
  let out := place_limit_order ex symbol side quantity price t in
  out = (None, t) \/
  exists r,
    snd out = t ++ [CCreate r] /\
    sound_request r /\ op_symbol r = symbol /\ op_type r = "LIMIT" /\
    op_quantity r = Some quantity /\ op_price r = Some price /\
    op_timeInForce r = Some "GTC" /\
    fst out = response_or_none (ex_create ex (List.length t) r).
Proof.
  unfold place_limit_order.
  destruct (validate_symbol symbol) eqn:Hs; simpl; [|now left].
  destruct (validate_side side) eqn:Hd; simpl; [|now left].
  destruct (validate_quantity quantity) eqn:Hq; simpl; [|now left].
  destruct (validate_price price) eqn:Hp; simpl; [|now left].
  right. exists (limit_params symbol side quantity price).
  apply validate_quantity_iff in Hq. apply validate_price_iff in Hp.
  destruct (sound_sent symbol side "LIMIT" (Some quantity) (Some price) None
                       (Some "GTC") None false (Some recv_window) Hs Hd Hq Hp I)
    as [Hsound Eu].
  repeat split; try reflexivity; try apply Hsound. exact Eu.
Qed.


(** *** modify_limit_order *)

(** X17: modify_limit_order stops after the lookup, with None, when the
    lookup raises or the order is neither NEW nor PARTIALLY_FILLED: no
    cancellation and no order is sent. *)
Theorem modify_limit_order_gate (ex : Exchange) (symbol : string) (order_id : Z)
        (quantity price : option Q) (t : Trace) :
  is_ok (ex_get_order ex (List.length t) (Str.upper symbol) order_id) = false \/
  (exists current,
      ex_get_order ex (List.length t) (Str.upper symbol) order_id = Ok current /\
      oi_status current <> "NEW" /\ oi_status current <> "PARTIALLY_FILLED") ->
  modify_limit_order ex symbol order_id quantity price t
  = (None, t ++ [CGetOrder (Str.upper symbol) order_id]).
Proof.
  unfold modify_limit_order, and_then, futures_get_order.
  intros [H|(cur & E & H1 & H2)].
  - destruct (ex_get_order ex _ _ _); [discriminate | reflexivity | reflexivity].
  - rewrite E.
    assert (M : modifiable (oi_status cur) = false).
    { unfold modifiable. simpl. rewrite !orb_false_iff, !String.eqb_neq. tauto. }
    rewrite M. reflexivity.
Qed.

Lemma modify_limit_order_gate_witness :
  ex_get_order one_shot 0 (Str.upper "BTCUSDT") 7 = Ok (sample_order 7 "FILLED") /\
  modify_limit_order one_shot "BTCUSDT" 7 None (Some 41000) []
  = (None, [CGetOrder "BTCUSDT" 7]).
Proof.
  split; [reflexivity|].
  apply (modify_limit_order_gate one_shot "BTCUSDT" 7 None (Some 41000) []).
  right. exists (sample_order 7 "FILLED").
  split; [reflexivity|]. split; discriminate.
Defined.

Lemma place_limit_order_some (ex : Exchange) (symbol side : string)
      (quantity price : Q) (t : Trace) (r : OrderInfo) :
  fst (place_limit_order ex symbol side quantity price t) = Some r ->
  (validate_symbol symbol = true /\ validate_side side = true /\
   0 < quantity /\ 0 < price) /\
  snd (place_limit_order ex symbol side quantity price t)
  = t ++ [CCreate (limit_params symbol side quantity price)] /\
  ex_create ex (List.length t) (limit_params symbol side quantity price) = Ok r.
Proof.
  unfold place_limit_order.
  destruct (validate_symbol symbol) eqn:Hs; simpl; [|discriminate].
  destruct (validate_side side) eqn:Hd; simpl; [|discriminate].
  destruct (validate_quantity quantity) eqn:Hq; simpl; [|discriminate].
  destruct (validate_price price) eqn:Hp; simpl; [|discriminate].
  apply validate_quantity_iff in Hq. apply validate_price_iff in Hp.
  unfold and_then, futures_create_order, pure.
  destruct (ex_create ex _ _) as [r'| |]; simpl; try discriminate.
  intro E. inversion E. subst. repeat split; auto.
Qed.

Lemma place_limit_order_invalid (ex : Exchange) (symbol side : string)
      (quantity price : Q) (t : Trace) :
  validate_symbol symbol = false \/ validate_side side = false ->
  place_limit_order ex symbol side quantity price t = (None, t).
Proof.
  unfold place_limit_order. intros [H|H].
  - now rewrite H.
  - rewrite H. destruct (validate_symbol symbol); reflexivity.
Qed.

(** X18: when modify_limit_order returns a new order, the old order was
    looked up, found NEW or PARTIALLY_FILLED and cancelled, and then
    exactly one LIMIT order was sent, on the side of the old order, with
    the given quantity and price or, for the ones not given, the origQty
    and the price of the old order; the result is the response to that
    request. *)
Theorem modify_limit_order_replaced (ex : Exchange) (symbol : string)
        (order_id : Z) (quantity price : option Q) (t : Trace)
        (new_order : OrderInfo) :
  fst (modify_limit_order ex symbol order_id quantity price t) = Some new_order ->
  exists current new_quantity new_price,
    ex_get_order ex (List.length t) (Str.upper symbol) order_id = Ok current /\
    (oi_status current = "NEW" \/ oi_status current = "PARTIALLY_FILLED") /\
    is_ok (ex_cancel ex (S (List.length t)) (Str.upper symbol) order_id) = true /\
    new_quantity = match quantity with
                   | Some q => Some q
                   | None => oi_origQty current
                   end /\
    new_price = match price with
                | Some x => Some x
                | None => oi_price current
                end /\
    exists q x,
      new_quantity = Some q /\ new_price = Some x /\ 0 < q /\ 0 < x /\
      snd (modify_limit_order ex symbol order_id quantity price t)
      = t ++ [CGetOrder (Str.upper symbol) order_id;
              CCancel (Str.upper symbol) order_id;
              CCreate (limit_params symbol (oi_side current) q x)] /\
      ex_create ex (S (S (List.length t)))
                (limit_params symbol (oi_side current) q x)
      = Ok new_order.
Proof.
  unfold modify_limit_order, and_then, futures_get_order, futures_cancel_order.
  destruct (ex_get_order ex _ _ _) as [cur| |] eqn:Eg; try discriminate.
  destruct (modifiable (oi_status cur)) eqn:Em; simpl; [|discriminate].
  rewrite length_app. simpl. rewrite Nat.add_1_r.
  destruct (ex_cancel ex _ _ _) as [c| |] eqn:Ec; try discriminate.
  destruct (or_current quantity (oi_origQty cur)) as [q|] eqn:Eq;
    [|discriminate].
  destruct (or_current price (oi_price cur)) as [x|] eqn:Ex; [|discriminate].
  intro H. apply place_limit_order_some in H.
  destruct H as ((_ & _ & Hq & Hx) & Ht & Hr).
  exists cur, (or_current quantity (oi_origQty cur)),
         (or_current price (oi_price cur)).
  split; [reflexivity|]. split.
  { unfold modifiable in Em. simpl in Em.
    rewrite !orb_true_iff, !String.eqb_eq in Em. intuition discriminate. }
  split; [reflexivity|]. split; [reflexivity|]. split; [reflexivity|].
  exists q, x. split; [exact Eq|]. split; [exact Ex|].
  split; [exact Hq|]. split; [exact Hx|]. split.
  - rewrite Ht, <- !app_assoc. reflexivity.
  - rewrite <- Hr. f_equal. rewrite !length_app. simpl. lia.
Qed.

Lemma modify_limit_order_replaced_witness :
  fst (modify_limit_order obliging "BTCUSDT" 7 None (Some 41000) [])
  = Some (sample_order 502 "NEW") /\
  snd (modify_limit_order obliging "BTCUSDT" 7 None (Some 41000) [])
  = [CGetOrder "BTCUSDT" 7; CCancel "BTCUSDT" 7;
     CCreate (limit_params "BTCUSDT" "BUY" (1 # 1000) 41000)].
Proof.
  assert (H : fst (modify_limit_order obliging "BTCUSDT" 7 None (Some 41000) [])
              = Some (sample_order 502 "NEW")) by reflexivity.
  split; [exact H|].
  destruct (modify_limit_order_replaced obliging "BTCUSDT" 7 None (Some 41000)
              [] _ H) as (cur & nq & np & _).
  reflexivity.
Defined.

(** X19: modify_limit_order is not atomic: once the old order is found
    modifiable and its cancellation is accepted, a symbol that is not
    valid as given (a lower-case one, say), an invalid side on the old
    order, or a quantity or price that is neither given nor readable from
    the old order makes it return None after the cancellation, without
    sending a replacement. *)
Theorem modify_limit_order_not_atomic (ex : Exchange) (symbol : string)
        (order_id : Z) (quantity price : option Q) (t : Trace)
        (current : OrderInfo) :
  ex_get_order ex (List.length t) (Str.upper symbol) order_id = Ok current ->
  oi_status current = "NEW" \/ oi_status current = "PARTIALLY_FILLED" ->
  is_ok (ex_cancel ex (S (List.length t)) (Str.upper symbol) order_id) = true ->
  validate_symbol symbol = false \/ validate_side (oi_side current) = false \/
  or_current quantity (oi_origQty current) = None \/
  or_current price (oi_price current) = None ->
  modify_limit_order ex symbol order_id quantity price t
  = (None, t ++ [CGetOrder (Str.upper symbol) order_id;
                 CCancel (Str.upper symbol) order_id]).
Proof.
  intros Eg Hst Hc Hbad.
  unfold modify_limit_order, and_then, futures_get_order, futures_cancel_order.
  rewrite Eg.
  assert (Em : modifiable (oi_status current) = true).
  { unfold modifiable. simpl. rewrite !orb_true_iff, !String.eqb_eq. tauto. }
  rewrite Em. simpl. rewrite length_app. simpl. rewrite Nat.add_1_r.
  destruct (ex_cancel ex _ _ _) as [c| |]; try discriminate.
  rewrite <- app_assoc. simpl.
  destruct (or_current quantity (oi_origQty current)) as [q|];
    [|reflexivity].
  destruct (or_current price (oi_price current)) as [x|]; [|reflexivity].
  destruct Hbad as [H|[H|[H|H]]]; try discriminate;
    apply place_limit_order_invalid; auto.
Qed.

Lemma modify_limit_order_not_atomic_witness :
  validate_symbol "btcusdt" = false /\
  modify_limit_order obliging "btcusdt" 7 None (Some 41000) []
  = (None, [CGetOrder "BTCUSDT" 7; CCancel "BTCUSDT" 7]).
Proof.
  assert (H : validate_symbol "btcusdt" = false) by reflexivity.
  split; [exact H|].
  apply (modify_limit_order_not_atomic obliging "btcusdt" 7 None (Some 41000) []
           (sample_order 7 "NEW")).
  - reflexivity.
  - left. reflexivity.
  - reflexivity.
  - left. exact H.
Defined.

Lemma limit_orders_of_fetch (ex : Exchange) (asked : option string) (t : Trace) :
  let out :=
    and_then (futures_get_open_orders ex asked)
             (fun r => match r with
                       | Ok orders =>
                           pure (filter (fun o => String.eqb (oi_type o) "LIMIT")
                                        orders)
                       | _ => pure []
                       end) t in
  snd out = t ++ [COpenOrders asked] /\
  Forall (fun o => oi_type o = "LIMIT") (fst out) /\
  (is_ok (ex_open_orders ex (List.length t) asked) = false -> fst out = []) /\
  (forall orders,
      ex_open_orders ex (List.length t) asked = Ok orders ->
      forall o, In o (fst out) <-> In o orders /\ oi_type o = "LIMIT").
Proof.
  unfold and_then, futures_get_open_orders, pure.
  destruct (ex_open_orders ex (List.length t) asked) as [orders| |]; simpl.
  - split; [reflexivity|]. split.
    + apply Forall_forall. intros o Ho. apply filter_In in Ho.
      now apply String.eqb_eq.
    + split; [discriminate|]. intros os Eo o. inversion Eo; subst.
      rewrite filter_In, String.eqb_eq. reflexivity.
  - split; [reflexivity|]. split; [constructor|].
    split; [reflexivity | discriminate].
  - split; [reflexivity|]. split; [constructor|].
    split; [reflexivity | discriminate].
Qed.

(** X20: get_open_limit_orders makes one fetch, for the upper-cased symbol
    or, when the symbol is missing or empty, for all symbols; it returns
    the fetched orders of type LIMIT and no other, and the empty list when
    the fetch raises. *)
Theorem get_open_limit_orders_filtered (ex : Exchange) (symbol : option string)
        (t : Trace) :
  let out := get_open_limit_orders ex symbol t in
  exists asked,
    snd out = t ++ [COpenOrders asked] /\
    (asked = None <-> symbol = None \/ symbol = Some "") /\
    (forall s, symbol = Some s -> s <> "" -> asked = Some (Str.upper s)) /\
    Forall (fun o => oi_type o = "LIMIT") (fst out) /\
    (is_ok (ex_open_orders ex (List.length t) asked) = false -> fst out = []) /\
    (forall orders,
        ex_open_orders ex (List.length t) asked = Ok orders ->
        forall o, In o (fst out) <-> In o orders /\ oi_type o = "LIMIT").
Proof.
  unfold get_open_limit_orders.
  destruct symbol as [s|]; simpl.
  - destruct (String.eqb_spec s "") as [E|N]; simpl.
    + exists None. subst s.
      destruct (limit_orders_of_fetch ex None t) as (H1 & H2 & H3 & H4).
      split; [exact H1|]. split; [tauto|].
      split; [intros s Hs; inversion Hs; congruence|].
      split; [exact H2|]. split; [exact H3 | exact H4].
    + exists (Some (Str.upper s)).
      destruct (limit_orders_of_fetch ex (Some (Str.upper s)) t)
        as (H1 & H2 & H3 & H4).
      split; [exact H1|].
      split; [split; [discriminate | intros [H|H]; [discriminate | congruence]]|].
      split; [intros s' Hs; inversion Hs; reflexivity|].
      split; [exact H2|]. split; [exact H3 | exact H4].
  - exists None.
    destruct (limit_orders_of_fetch ex None t) as (H1 & H2 & H3 & H4).
    split; [exact H1|]. split; [tauto|]. split; [discriminate|].
    split; [exact H2|]. split; [exact H3 | exact H4].
Qed.

Lemma get_open_limit_orders_filtered_witness :
  get_open_limit_orders one_shot (Some "") [] = ([], [COpenOrders None]).
Proof.
  destruct (get_open_limit_orders_filtered one_shot (Some "") [])
    as (asked & _).
  reflexivity.
Defined.

(** *** place_oco_for_position and calculate_oco_prices *)

Lemma oco_valid_iff (symbol position_side : string) (q tp sl : Q) :
  oco_valid symbol position_side q tp sl = true <->
  validate_symbol symbol = true /\
  ((Str.upper position_side = "LONG" /\ sl < tp) \/
   (Str.upper position_side = "SHORT" /\ tp < sl)) /\
  0 < q /\ 0 < tp /\ 0 < sl.
Proof.
  unfold oco_valid, oco_prices_ok.
  rewrite <- (validate_quantity_iff q), <- !validate_price_iff.
  destruct (validate_symbol symbol); simpl; [|intuition congruence].
  assert (Lt : forall a b, negb (Qle_bool a b) = true <-> b < a).
  { intros a b. rewrite negb_true_iff. split; intro H.
    - apply Qnot_le_lt. intro L. apply Qle_bool_iff in L. congruence.
    - destruct (Qle_bool a b) eqn:E; [|reflexivity].
      apply Qle_bool_iff in E. exfalso. exact (Qlt_not_le _ _ H E). }
  destruct (String.eqb_spec (Str.upper position_side) "LONG") as [El|Nl];
    simpl.
  - destruct (validate_quantity q); simpl; [|intuition congruence].
    destruct (validate_price tp); simpl; [|intuition congruence].
    destruct (validate_price sl); simpl; [|intuition congruence].
    rewrite Lt. rewrite El. intuition discriminate.
  - destruct (String.eqb_spec (Str.upper position_side) "SHORT") as [Es|Ns];
      simpl; [|intuition congruence].
    destruct (validate_quantity q); simpl; [|intuition congruence].
    destruct (validate_price tp); simpl; [|intuition congruence].
    destruct (validate_price sl); simpl; [|intuition congruence].
    rewrite Lt. rewrite Es. intuition discriminate.
Qed.

Lemma closing_params_sound (symbol order_side type : string) (x : Q) :
  validate_symbol symbol = true -> 0 < x ->
  order_side = "BUY" \/ order_side = "SELL" ->
  sound_request (closing_params symbol order_side type x).
Proof.
  intros Hs Hx Hd. unfold sound_request, closing_params. simpl.
  rewrite (proj1 (validate_symbol_upper symbol Hs)).
  repeat split; auto.
Qed.

(** X21: when place_oco_for_position returns the two responses, it has
    sent exactly two requests, the TAKE_PROFIT_MARKET at take_profit_price
    first and the STOP_MARKET at stop_price second, both closing the
    position (closePosition, no quantity) on the side opposite to the
    position: SELL for LONG, with stop_price < take_profit_price, and BUY
    for SHORT, with take_profit_price < stop_price. *)
Theorem place_oco_placed (ex : Exchange) (symbol position_side : string)
        (q tp sl : Q) (t : Trace) (r1 r2 : OrderInfo) :
  fst (place_oco_for_position ex symbol position_side q tp sl t)
  = Some (r1, r2) ->
  exists order_side,
    ((Str.upper position_side = "LONG" /\ order_side = "SELL" /\ sl < tp) \/
     (Str.upper position_side = "SHORT" /\ order_side = "BUY" /\ tp < sl)) /\
    snd (place_oco_for_position ex symbol position_side q tp sl t)
    = t ++ [CCreate (closing_params symbol order_side "TAKE_PROFIT_MARKET" tp);
            CCreate (closing_params symbol order_side "STOP_MARKET" sl)] /\
    sound_request (closing_params symbol order_side "TAKE_PROFIT_MARKET" tp) /\
    sound_request (closing_params symbol order_side "STOP_MARKET" sl) /\
    (forall ty x,
        op_closePosition (closing_params symbol order_side ty x) = true /\
        op_quantity (closing_params symbol order_side ty x) = None /\
        op_symbol (closing_params symbol order_side ty x) = symbol) /\
    ex_create ex (List.length t)
              (closing_params symbol order_side "TAKE_PROFIT_MARKET" tp) = Ok r1 /\
    ex_create ex (S (List.length t))
              (closing_params symbol order_side "STOP_MARKET" sl) = Ok r2.
Proof.
  unfold place_oco_for_position.
  destruct (oco_valid symbol position_side q tp sl) eqn:Hv; simpl;
    [|discriminate].
  apply oco_valid_iff in Hv. destruct Hv as (Hs & Hside & Hq & Htp & Hsl).
  unfold and_then, futures_create_order, warning, pure.
  set (order_side := order_side_for (Str.upper position_side)).
  destruct (ex_create ex (List.length t) _) as [a| |] eqn:E1; try discriminate.
  rewrite length_app. simpl. rewrite Nat.add_1_r.
  destruct (ex_create ex (S (List.length t)) _) as [b| |] eqn:E2;
    try discriminate.
  simpl. intro H. inversion H; subst a b.
  assert (Hos : (Str.upper position_side = "LONG" /\ order_side = "SELL" /\ sl < tp)
                \/ (Str.upper position_side = "SHORT" /\ order_side = "BUY"
                    /\ tp < sl)).
  { subst order_side. unfold order_side_for.
    destruct Hside as [[E L]|[E L]]; rewrite E; simpl; [left|right]; auto. }
  assert (Hd : order_side = "BUY" \/ order_side = "SELL").
  { destruct Hos as [(_ & E & _)|(_ & E & _)]; rewrite E; auto. }
  exists order_side. split; [exact Hos|].
  split; [now rewrite <- app_assoc|].
  split; [now apply closing_params_sound|].
  split; [now apply closing_params_sound|].
  split.
  { intros ty x. unfold closing_params. simpl.
    rewrite (proj1 (validate_symbol_upper symbol Hs)). auto. }
  split; [exact E1 | exact E2].
Qed.

Lemma place_oco_placed_witness :
  fst (place_oco_for_position obliging "BTCUSDT" "long" (1 # 1000) 26000 24000 [])
  = Some (sample_order 500 "NEW", sample_order 501 "NEW") /\
  snd (place_oco_for_position obliging "BTCUSDT" "long" (1 # 1000) 26000 24000 [])
  = [CCreate (closing_params "BTCUSDT" "SELL" "TAKE_PROFIT_MARKET" 26000);
     CCreate (closing_params "BTCUSDT" "SELL" "STOP_MARKET" 24000)].
Proof.
  assert (H : fst (place_oco_for_position obliging "BTCUSDT" "long" (1 # 1000)
                                          26000 24000 [])
              = Some (sample_order 500 "NEW", sample_order 501 "NEW"))
    by reflexivity.
  split; [exact H|].
  destruct (place_oco_placed obliging "BTCUSDT" "long" (1 # 1000) 26000 24000
              [] _ _ H) as (side & _).
  reflexivity.
Defined.

(** X22: place_oco_for_position can fail half way: for valid inputs, when
    the exchange accepts the take-profit order and rejects the stop-loss
    order, the function returns None, as for a failure, although the
    take-profit order is live; only a warning tells; and when the
    take-profit order is rejected the stop-loss order is not tried. *)
Theorem place_oco_half_placed (ex : Exchange) (symbol position_side : string)
        (q tp sl : Q) (t : Trace) :
  oco_valid symbol position_side q tp sl = true ->
  let order_side := order_side_for (Str.upper position_side) in
  let take_profit := closing_params symbol order_side "TAKE_PROFIT_MARKET" tp in
  let stop_loss := closing_params symbol order_side "STOP_MARKET" sl in
  (is_ok (ex_create ex (List.length t) take_profit) = true ->
   is_ok (ex_create ex (S (List.length t)) stop_loss) = false ->
   place_oco_for_position ex symbol position_side q tp sl t
   = (None, t ++ [CCreate take_profit; CCreate stop_loss; CWarning])) /\
  (is_ok (ex_create ex (List.length t) take_profit) = false ->
   place_oco_for_position ex symbol position_side q tp sl t
   = (None, t ++ [CCreate take_profit])).
Proof.
  intros Hv order_side take_profit stop_loss.
  unfold place_oco_for_position. rewrite Hv. simpl.
  unfold and_then, futures_create_order, warning, pure.
  fold order_side. fold take_profit. fold stop_loss.
  split.
  - intros H1 H2.
    destruct (ex_create ex (List.length t) take_profit); try discriminate.
    rewrite length_app. simpl. rewrite Nat.add_1_r.
    destruct (ex_create ex (S (List.length t)) stop_loss); try discriminate;
      now rewrite <- !app_assoc.
  - intro H1.
    destruct (ex_create ex (List.length t) take_profit); try discriminate;
      reflexivity.
Qed.

Lemma place_oco_half_placed_witness :
  oco_valid "BTCUSDT" "LONG" (1 # 1000) 26000 24000 = true /\
  place_oco_for_position one_shot "BTCUSDT" "LONG" (1 # 1000) 26000 24000 []
  = (None, [CCreate (closing_params "BTCUSDT" "SELL" "TAKE_PROFIT_MARKET" 26000);
            CCreate (closing_params "BTCUSDT" "SELL" "STOP_MARKET" 24000);
            CWarning]).
Proof.
  assert (H : oco_valid "BTCUSDT" "LONG" (1 # 1000) 26000 24000 = true)
    by reflexivity.
  split; [exact H|].
  apply (proj1 (place_oco_half_placed one_shot "BTCUSDT" "LONG" (1 # 1000)
                  26000 24000 [] H)); reflexivity.
Defined.

(** X23: position_quantity is validated and then not used: two calls that
    differ only in a positive position_quantity send the same requests and
    return the same result. *)
Theorem place_oco_ignores_quantity (ex : Exchange) (symbol position_side : string)
        (q1 q2 tp sl : Q) (t : Trace) :
  0 < q1 -> 0 < q2 ->
  place_oco_for_position ex symbol position_side q1 tp sl t
  = place_oco_for_position ex symbol position_side q2 tp sl t.
Proof.
  intros H1 H2. unfold place_oco_for_position.
  assert (E : oco_valid symbol position_side q1 tp sl
              = oco_valid symbol position_side q2 tp sl).
  { unfold oco_valid.
    apply validate_quantity_iff in H1. apply validate_quantity_iff in H2.
    now rewrite H1, H2. }
  now rewrite E.
Qed.

Lemma place_oco_ignores_quantity_witness :
  0 < 1 # 1000 /\ 0 < 5 /\
  place_oco_for_position obliging "BTCUSDT" "LONG" (1 # 1000) 26000 24000 []
  = place_oco_for_position obliging "BTCUSDT" "LONG" 5 26000 24000 [].
Proof.
  assert (H1 : 0 < 1 # 1000) by reflexivity.
  assert (H2 : 0 < 5) by reflexivity.
  split; [exact H1|]. split; [exact H2|].
  exact (place_oco_ignores_quantity obliging "BTCUSDT" "LONG" (1 # 1000) 5
           26000 24000 [] H1 H2).
Defined.

Lemma scaled_up (c a : Q) : 0 < c -> 0 < a -> c < c * (1 + a / 100).
Proof.
  intros Hc Ha.
  assert (P : 0 < c * a) by (apply Qmult_lt_0_compat; assumption).
  setoid_replace (c * (1 + a / 100)) with (c + (c * a) * (1 # 100)) by field.
  lra.
Qed.

Lemma scaled_down (c b : Q) : 0 < c -> 0 < b -> c * (1 - b / 100) < c.
Proof.
  intros Hc Hb.
  assert (P : 0 < c * b) by (apply Qmult_lt_0_compat; assumption).
  setoid_replace (c * (1 - b / 100)) with (c - (c * b) * (1 # 100)) by field.
  lra.
Qed.

Lemma scaled_down_pos (c b : Q) : 0 < c -> b < 100 -> 0 < c * (1 - b / 100).
Proof.
  intros Hc Hb. apply Qmult_lt_0_compat; [exact Hc|].
  setoid_replace (1 - b / 100) with ((100 - b) * (1 # 100)) by field. lra.
Qed.




End OrderFacts.

(** ** Orders placed against fills *)

Section GridExposure.
Import Grid GridSpec GridInv.

Lemma replace_filled_exposure gw p order_id o st l :
  (placed (fst (replace_filled gw p order_id o st l))
   - fills (fst (replace_filled gw p order_id o st l))
   <= placed st - fills st)%Z.
Proof.
  unfold placed, fills.
  destruct (replace_filled_cases gw p order_id o st l)
    as [[_ E]|[(_ & resp & _ & E)|(_ & _ & E)]]; rewrite E;
    cbn [fst grid_orders total_buy_orders_placed total_sell_orders_placed
         total_buy_fills total_sell_fills record_fill track_replacement];
    destruct (side o); cbn [mirror_side]; lia.
Qed.

(** X26: beyond the 2*num_grids initial orders, an order is placed only in
    answer to a fill: in every returned summary
    total_buy_orders + total_sell_orders <= 2*num_grids + total_trades. *)
Theorem grid_orders_follow_fills (gw : Gateway) (p : Params) (fuel : nat)
        (l : Log) (s : Summary) :
  fst (start_grid_trading gw p fuel l) = Returned s ->
  (total_buy_orders s + total_sell_orders s
   <= 2 * num_grids p + total_trades s)%Z.
Proof.
  intro H.
  destruct (start_grid_trading_returned gw p fuel l s H)
    as (Hv & c & st' & l1 & Hl & Es).
  apply validate_iff in Hv. destruct Hv as (_ & _ & _ & _ & _ & Hn & _).
  set (st0 := fst (place_initial_orders gw p l)) in *.
  assert (H0 : (placed st0 - fills st0 <= 2 * num_grids p)%Z).
  { assert (Hf : fills st0 = 0%Z).
    { unfold st0.
      apply (place_initial_orders_run gw p (fun st _ => fills st = 0%Z)).
      - intros i st l0 _ E. unfold place_buy, bind, create_order.
        destruct (gw_create gw _ _); simpl; exact E.
      - intros i st l0 _ E. unfold place_sell, bind, create_order.
        destruct (gw_create gw _ _); simpl; exact E.
      - reflexivity. }
    unfold st0 in *. rewrite Hf, place_initial_orders_placed.
    pose proof (count_ok_le gw (List.length l) (initial_requests p)) as Hc.
    rewrite initial_requests_length in Hc. lia. }
  destruct (monitor_loop_run gw p
              (fun st _ => (placed st - fills st <= 2 * num_grids p)%Z))
    with (fuel := fuel) (c := 0%Z) (st := st0)
         (l := snd (place_initial_orders gw p l)) as (st1 & H1 & Hs); auto.
  - intros k o st l0 _ Hk.
    pose proof (replace_filled_exposure gw p k o st l0). lia.
  - rewrite <- (Hs _ _ Hl) in H1. subst s. unfold placed, fills in H1.
    cbn [total_buy_orders total_sell_orders total_trades summary]. lia.
Qed.

Lemma grid_orders_follow_fills_witness :
  fst (start_grid_trading (Samples.fill_first 9) Samples.grid_thirds 5 [])
  = Returned (mkSummary true 1 3 4 1 0 6 1) /\
  (total_buy_orders (mkSummary true 1 3 4 1 0 6 1)
   + total_sell_orders (mkSummary true 1 3 4 1 0 6 1)
   <= 2 * num_grids Samples.grid_thirds
      + total_trades (mkSummary true 1 3 4 1 0 6 1))%Z.
Proof.
  assert (H : fst (start_grid_trading (Samples.fill_first 9)
                                      Samples.grid_thirds 5 [])
              = Returned (mkSummary true 1 3 4 1 0 6 1)) by reflexivity.
  split; [exact H|].
  exact (grid_orders_follow_fills _ _ _ _ _ H).
Defined.
End GridExposure.
